(** * RAII wrappers over the libusb C API ([src/pc/protocols/wrap_libusb.hpp])

    A shallow embedding of the wrapper classes of namespace [dai::libusb]:
    [usb_error], [call_log_throw], [unique_resource_ptr], [device_list],
    [device_handle] and [usb_device].  The wrapped C library is not part of
    the header; it is taken as a parameter (class [LibUsb]) and every call
    the wrappers make into it is recorded in a trace, so that statements
    about which native calls happen, and in which order, are statements
    about the embedded code only. *)

From Stdlib Require Import ZArith List String Lia Bool.
From stdpp Require Import base option list strings gmap.

Local Open Scope string_scope.
Local Open Scope list_scope.
Local Open Scope Z_scope.

(** ** Raw handles and C integers *)

(** A raw handle ([libusb_device*], [libusb_device_handle*], ...) is an
    address; [nullptr] is address zero. *)
Definition pointer := Z.
Definition nullptr : pointer := 0.

Definition INT_MIN : Z := - 2 ^ 31.
Definition INT_MAX : Z := 2 ^ 31 - 1.

(** [static_cast<int>(x)]: reduction to the 32-bit two's complement range. *)
Definition static_cast_int (x : Z) : Z := (x + 2 ^ 31) mod 2 ^ 32 - 2 ^ 31.

(** [static_cast<size_type>(x)] for the 64-bit unsigned [size_type]. *)
Definition static_cast_size_type (x : Z) : Z := x mod 2 ^ 64.

(** ** Exceptions *)

(** The two exception classes of the header.  [usb_error] is a
    [std::system_error]: it carries the libusb code, as the value of its
    [std::error_code], and the description it was constructed with. *)
Inductive exn : Type :=
| usb_error (code : Z) (what : string)
| out_of_range (what : string).

Definition exn_code (e : exn) : option Z :=
  match e with
  | usb_error c _ => Some c
  | out_of_range _ => None
  end.

Definition exn_what (e : exn) : string :=
  match e with
  | usb_error _ s => s
  | out_of_range s => s
  end.

(** ** A state-and-exception monad *)

Inductive outcome (A : Type) : Type :=
| returned (a : A)
| thrown (e : exn).
Arguments returned {A} a.
Arguments thrown {A} e.

Definition eff (S A : Type) : Type := S -> outcome A * S.

Definition ret {S A} (a : A) : eff S A := fun s => (returned a, s).

Definition bind {S A B} (m : eff S A) (k : A -> eff S B) : eff S B :=
  fun s =>
    match m s with
    | (returned a, s') => k a s'
    | (thrown e, s') => (thrown e, s')
    end.

Definition throw {S A} (e : exn) : eff S A := fun s => (thrown e, s).

Definition gets {S A} (f : S -> A) : eff S A := fun s => (returned (f s), s).

Definition modify {S} (f : S -> S) : eff S unit := fun s => (returned tt, f s).

(** Run a computation on a part [T] of the state [S]. *)
Definition zoom {S T A} (view : S -> T) (update : T -> S -> S) (m : eff T A) : eff S A :=
  fun s => let (r, t) := m (view s) in (r, update t s).

(** The monad is used through stdpp's notations [x ← m; k] and [m ;; k]. *)
#[global] Instance eff_ret {S} : MRet (eff S) := fun A a => ret a.
#[global] Instance eff_bind {S} : MBind (eff S) := fun A B k m => bind m k.

(** A range-based [for] loop over a vector whose body is [body]. *)
Fixpoint for_each {S A} (body : A -> eff S unit) (l : list A) : eff S unit :=
  match l with
  | [] => ret tt
  | x :: l' => body x ;; for_each body l'
  end.

(** ** The native layer *)

(** Calls into the C library, as the wrappers issue them. *)
Inductive native_call : Type :=
| call_libusb_get_device_list (ctx : pointer)
| call_libusb_free_device_list (list_ : pointer) (unref_devices : Z)
| call_libusb_ref_device (dev : pointer)
| call_libusb_unref_device (dev : pointer)
| call_libusb_open (dev : pointer)
| call_libusb_close (dev_handle : pointer)
| call_libusb_claim_interface (dev_handle : pointer) (interface_number : Z)
| call_libusb_release_interface (dev_handle : pointer) (interface_number : Z).

#[global] Instance native_call_eq_dec : EqDecision native_call.
Proof. solve_decision. Defined.

(** The functions of [libusb.h] the header uses, over a native state [N].
    Out parameters are returned next to the return code.  [refcnt] and
    [is_claimed] are observations of the native state (the reference count
    of a device, whether an interface is claimed through a handle);
    [device_array] reads the array a device list pointer designates. *)
Class LibUsb (N : Type) : Type := {
  libusb_strerror : Z -> string;
  libusb_get_device_list : pointer -> N -> (Z * pointer) * N;
  libusb_free_device_list : pointer -> Z -> N -> N;
  libusb_ref_device : pointer -> N -> pointer * N;
  libusb_unref_device : pointer -> N -> N;
  libusb_open : pointer -> N -> (Z * pointer) * N;
  libusb_close : pointer -> N -> N;
  libusb_claim_interface : pointer -> Z -> N -> Z * N;
  libusb_release_interface : pointer -> Z -> N -> Z * N;
  refcnt : N -> pointer -> Z;
  is_claimed : N -> pointer -> Z -> bool;
  device_array : N -> pointer -> Z -> pointer
}.

(** Modelled from the spec: the severity levels of the logging sink
    ([mvLog_t] of XLinkLog.h, which is not part of the header). *)
Inductive mvLog_t : Type :=
| MVLOG_DEBUG | MVLOG_INFO | MVLOG_WARN | MVLOG_ERROR | MVLOG_FATAL.

(** What the logging sink receives: severity, originating function, source
    line and the formatted message. *)
Record log_entry : Type := LogEntry {
  log_severity : mvLog_t;
  log_func : string;
  log_line : Z;
  log_message : string
}.

(** The state the wrappers run in: the native state, the trace of native
    calls issued so far and the messages handed to the logging sink. *)
Record world (N : Type) : Type := World {
  native : N;
  calls : list native_call;
  logged : list log_entry
}.
Arguments World {N} _ _ _.
Arguments native {N} _.
Arguments calls {N} _.
Arguments logged {N} _.

Section Wrappers.

Context {N : Type} `{LibUsb N}.

(** A member function runs on its object [O] and the world; a free
    function runs on the world alone ([O := unit]). *)
Definition method (O A : Type) : Type := eff (O * world N) A.

Definition this {O} : method O O := gets fst.

Definition set_this {O} (f : O -> O) : method O unit :=
  modify (fun s => (f (fst s), snd s)).

Definition in_world {O A} (m : eff (world N) A) : method O A :=
  zoom snd (fun w s => (fst s, w)) m.

(** Issue the native call [c], implemented by [f], and record it. *)
Definition invoke {A} (c : native_call) (f : N -> A * N) : eff (world N) A :=
  fun w =>
    let (a, n) := f (native w) in
    (returned a, World n (calls w ++ [c]) (logged w)).

(** A native function of return type [void]. *)
Definition invoke_void (c : native_call) (f : N -> N) : eff (world N) unit :=
  invoke c (fun n => (tt, f n)).

(** Modelled from the spec: [logprintf] of XLinkLog.h hands the severity,
    the originating function, the line and the formatted message to the
    logging sink. *)
Definition logprintf (lvl : mvLog_t) (func : string) (line : Z) (msg : string)
  : eff (world N) unit :=
  modify (fun w => World (native w) (calls w) (logged w ++ [LogEntry lvl func line msg])).

(** The state after the sink received one more message. *)
Definition with_entry {O} (s : O * world N) (e : log_entry) : O * world N :=
  (fst s, World (native (snd s)) (calls (snd s)) (logged (snd s) ++ [e])).

(** ** [usb_error] and [call_log_throw] *)

(** [explicit usb_error(const int libusbErrorCode)] *)
Definition usb_error_of_code (libusbErrorCode : Z) : exn :=
  usb_error libusbErrorCode (libusb_strerror libusbErrorCode).

(** The two overloads of [throw_conditional], selected by the tag. *)
Definition throw_conditional {S} (errCode : Z) (Throw : bool) : eff S unit :=
  if Throw then throw (usb_error_of_code errCode) else ret tt.

(** The message ["dai::libusb failed %s(): %s"] after formatting. *)
Definition failed_message (func_within : string) (rcNum : Z) : string :=
  "dai::libusb failed " +:+ func_within +:+ "(): " +:+ libusb_strerror (static_cast_int rcNum).

(** [func] stands for the call [func(std::forward<Args>(args)...)]; it runs
    in the caller's frame [O], where its out parameters live. *)
Definition call_log_throw {O} (Loglevel : mvLog_t) (Throw : bool)
    (func_within : string) (line_number : Z) (func : method O Z)
  : method O Z :=
  rcNum ← func;
  (if rcNum <? 0 then
     in_world (logprintf Loglevel func_within line_number (failed_message func_within rcNum)) ;;
     throw_conditional (static_cast_int rcNum) Throw
   else ret tt) ;;
  ret rcNum.

(** [CALL_LOG_ERROR_THROW(...)]: the default template arguments. *)
Definition CALL_LOG_ERROR_THROW {O} (func_within : string) (line_number : Z)
    (func : method O Z) : method O Z :=
  call_log_throw MVLOG_ERROR true func_within line_number func.

(** A local object of type [L], initialised to [init], whose destructor
    [dtor] runs when an exception unwinds the frame; [body] ends by moving
    the value it returns out of the frame. *)
Definition with_local {O L A} (init : L) (dtor : method L unit) (body : method L A)
  : method O A :=
  fun s =>
    match body (init, snd s) with
    | (returned a, lw) => (returned a, (fst s, snd lw))
    | (thrown e, lw) => (thrown e, (fst s, snd (snd (dtor lw))))
    end.

(** ** [unique_resource_ptr<Resource, Dispose>] *)

Section unique_resource.

Variable Dispose : pointer -> eff (world N) unit.

(** [unique_resource_deleter::operator()] *)
Definition unique_resource_deleter (ptr : pointer) : eff (world N) unit :=
  if negb (ptr =? nullptr) then Dispose ptr else ret tt.

(** The members of [std::unique_ptr] the header relies on, on the stored
    pointer: [get], [release], [reset] and the destructor. *)
Definition unique_ptr_get : method pointer pointer := this.

Definition unique_ptr_release : method pointer pointer :=
  old ← this;
  set_this (fun _ => nullptr) ;;
  ret old.

Definition unique_ptr_reset (p : pointer) : method pointer unit :=
  old ← this;
  set_this (fun _ => p) ;;
  if negb (old =? nullptr) then in_world (unique_resource_deleter old) else ret tt.

Definition unique_ptr_destroy : method pointer unit :=
  p ← this;
  (if negb (p =? nullptr) then in_world (unique_resource_deleter p) else ret tt) ;;
  set_this (fun _ => nullptr).

(** [exchange11<_base, _base>(_Val, _New_val)]: [_Old_val] is
    move-constructed from [_Val], then [_Val] is move-assigned from
    [_New_val], that is [_Val.reset(_New_val.release())]. *)
Definition exchange_base (New_val : pointer) : method pointer pointer :=
  Old_val ← unique_ptr_release;
  unique_ptr_reset New_val ;;
  ret Old_val.

End unique_resource.

(** ** [device_list] *)

Record device_list : Type := DeviceList {
  countDevices : Z;
  deviceList : pointer
}.

(** [device_list() = default], from the member initialisers. *)
Definition device_list_default : device_list := DeviceList 0 nullptr.

(** The call [libusb_get_device_list(context, &deviceList)]. *)
Definition get_device_list_into (context : pointer) : method device_list Z :=
  r ← in_world (invoke (call_libusb_get_device_list context) (libusb_get_device_list context));
  set_this (fun l => DeviceList (countDevices l) (snd r)) ;;
  ret (fst r).

(** [explicit device_list(libusb_context* context)], run on the
    default-initialised members. *)
Definition device_list_ctor_body (context : pointer) : method device_list unit :=
  rc ← CALL_LOG_ERROR_THROW "device_list" 151 (get_device_list_into context);
  set_this (fun l => DeviceList (static_cast_size_type rc) (deviceList l)).

(** Construction yields the object, or no object when the body throws. *)
Definition device_list_ctor (context : pointer) : eff (world N) device_list :=
  fun w =>
    match device_list_ctor_body context (device_list_default, w) with
    | (returned _, (l, w')) => (returned l, w')
    | (thrown e, (_, w')) => (thrown e, w')
    end.

Definition device_list_dtor : method device_list unit :=
  l ← this;
  if negb (deviceList l =? nullptr)
  then in_world (invoke_void (call_libusb_free_device_list (deviceList l) 1)
                             (libusb_free_device_list (deviceList l) 1))
  else ret tt.

Definition size (l : device_list) : Z := countDevices l.

Definition empty (l : device_list) : bool := countDevices l =? 0.

Definition begin (l : device_list) : pointer := deviceList l.

(** [*(begin() + index)]: a read of the native array. *)
Definition deref_at (index : Z) : method device_list pointer :=
  s ← gets id;
  ret (device_array (native (snd s)) (begin (fst s)) index).

(** [operator[]] *)
Definition subscript (index : Z) : method device_list pointer := deref_at index.

(** [at] *)
Definition at_ (index : Z) : method device_list pointer :=
  l ← this;
  if size l <=? index
  then throw (out_of_range "device_list::at")
  else deref_at index.

(** ** [device_handle] *)

Record device_handle : Type := DeviceHandle {
  handle_base : pointer;
  claimedInterfaces : list Z
}.

Definition device_handle_default : device_handle := DeviceHandle nullptr [].

Definition libusb_close_ (p : pointer) : eff (world N) unit :=
  invoke_void (call_libusb_close p) (libusb_close p).

(** Run a member of the [_base] subobject. *)
Definition on_base {A} (m : method pointer A) : method device_handle A :=
  zoom (fun s => (handle_base (fst s), snd s))
       (fun t s => (DeviceHandle (fst t) (claimedInterfaces (fst s)), snd t)) m.

Definition set_claimedInterfaces (l : list Z) : method device_handle unit :=
  set_this (fun h => DeviceHandle (handle_base h) l).

Definition get : method device_handle pointer := on_base unique_ptr_get.

(** [std::find(claimedInterfaces.begin(), claimedInterfaces.end(), x)]: the
    position of the first occurrence, [None] for [end()]. *)
Definition std_find (x : Z) (l : list Z) : option nat :=
  fst <$> list_find (fun y => y = x) l.

(** The body of the loop of [reset]. *)
Definition reset_release (interfaceNumber : Z) : method device_handle unit :=
  p ← get;
  call_log_throw MVLOG_ERROR false "reset" 298
    (in_world (invoke (call_libusb_release_interface p interfaceNumber)
                      (libusb_release_interface p interfaceNumber))) ;;
  ret tt.

(** [void reset(pointer ptr = pointer{}) noexcept] *)
Definition device_handle_reset (ptr : pointer) : method device_handle unit :=
  h ← this;
  for_each reset_release (claimedInterfaces h) ;;
  on_base (unique_ptr_reset libusb_close_ ptr).

(** [~device_handle() noexcept { reset(); }]; the members are destroyed
    after the body: the vector first, then the base, whose pointer [reset]
    has left null. *)
Definition device_handle_dtor : method device_handle unit :=
  device_handle_reset nullptr ;;
  set_claimedInterfaces [] ;;
  on_base (unique_ptr_destroy libusb_close_).

(** [device_handle::pointer release() noexcept] *)
Definition device_handle_release : method device_handle pointer :=
  set_claimedInterfaces [] ;;
  on_base unique_ptr_release.

(** [void claim_interface(int interface_number)] *)
Definition claim_interface (interface_number : Z) : method device_handle unit :=
  h ← this;
  match std_find interface_number (claimedInterfaces h) with
  | Some _ => ret tt
  | None =>
      p ← get;
      CALL_LOG_ERROR_THROW "claim_interface" 314
        (in_world (invoke (call_libusb_claim_interface p interface_number)
                          (libusb_claim_interface p interface_number))) ;;
      h' ← this;
      set_claimedInterfaces (claimedInterfaces h' ++ [interface_number])
  end.

(** [void release_interface(int interface_number)] *)
Definition release_interface (interface_number : Z) : method device_handle unit :=
  h ← this;
  match std_find interface_number (claimedInterfaces h) with
  | None => ret tt
  | Some candidate =>
      p ← get;
      CALL_LOG_ERROR_THROW "release_interface" 323
        (in_world (invoke (call_libusb_release_interface p interface_number)
                          (libusb_release_interface p interface_number))) ;;
      h' ← this;
      set_claimedInterfaces (delete candidate (claimedInterfaces h'))
  end.

(** [exchange11(other.claimedInterfaces, {})] *)
Definition exchange_claimedInterfaces (New_val : list Z) : method device_handle (list Z) :=
  h ← this;
  set_claimedInterfaces New_val ;;
  ret (claimedInterfaces h).

(** [device_handle(device_handle &&other) noexcept]: runs on [other] and
    yields the new object. *)
Definition device_handle_move_ctor : method device_handle device_handle :=
  b ← on_base (exchange_base libusb_close_ nullptr);
  c ← exchange_claimedInterfaces [];
  ret (DeviceHandle b c).

(** The body of [operator=(device_handle &&other)] under
    [if (this != &other)], on the pair of the two distinct objects
    [( *this, other )]. *)
Definition on_target {O A} (m : method O A) : method (O * O) A :=
  zoom (fun s => (fst (fst s), snd s)) (fun t s => ((fst t, snd (fst s)), snd t)) m.

Definition on_other {O A} (m : method O A) : method (O * O) A :=
  zoom (fun s => (snd (fst s), snd s)) (fun t s => ((fst (fst s), fst t), snd t)) m.

Definition move_assign_body : method (device_handle * device_handle) unit :=
  tmp ← on_other (on_base (exchange_base libusb_close_ nullptr));
  on_target (on_base (unique_ptr_reset libusb_close_ tmp)) ;;
  c ← on_other (exchange_claimedInterfaces []);
  on_target (set_claimedInterfaces c).

(** Objects live at addresses; [operator=] compares the addresses of its
    two operands. *)
Definition loc := positive.

Definition device_handle_move_assign (this_ other : loc)
  : method (gmap loc device_handle) unit :=
  fun s =>
    if bool_decide (this_ ≠ other) then
      match fst s !! this_, fst s !! other with
      | Some t, Some o =>
          let (r, s') := move_assign_body ((t, o), snd s) in
          (r, (<[other := snd (fst s')]> (<[this_ := fst (fst s')]> (fst s)), snd s'))
      | _, _ => (returned tt, s)
      end
    else (returned tt, s).

(** ** [usb_device] *)

Definition usb_device := pointer.

Definition libusb_unref_device_ (p : pointer) : eff (world N) unit :=
  invoke_void (call_libusb_unref_device p) (libusb_unref_device p).

Definition libusb_ref_device_ (p : pointer) : eff (world N) pointer :=
  invoke (call_libusb_ref_device p) (libusb_ref_device p).

(** [explicit usb_device(pointer p) noexcept : _base{libusb_ref_device(p)}] *)
Definition usb_device_ctor (p : pointer) : eff (world N) usb_device :=
  libusb_ref_device_ p.

(** The inherited destructor of [_base]. *)
Definition usb_device_dtor : method usb_device unit :=
  unique_ptr_destroy libusb_unref_device_.

(** [void reset(pointer p = pointer{}) noexcept] *)
Definition usb_device_reset (p : pointer) : method usb_device unit :=
  q ← in_world (libusb_ref_device_ p);
  unique_ptr_reset libusb_unref_device_ q.

(** Modelled from the spec: [dai::out_param] of wrap_libusb_details.hpp,
    which is not part of the header.  The wrapper passed as out parameter
    takes ownership of the raw handle the native call stored: the call
    [libusb_open(get(), dai::out_param(handle))]. *)
Definition libusb_open_into (dev : pointer) : method device_handle Z :=
  r ← in_world (invoke (call_libusb_open dev) (libusb_open dev));
  device_handle_reset (snd r) ;;
  ret (fst r).

(** [device_handle open() const] *)
Definition open : method usb_device device_handle :=
  dev ← unique_ptr_get;
  with_local device_handle_default device_handle_dtor
    (CALL_LOG_ERROR_THROW "open" 365 (libusb_open_into dev) ;;
     h ← this;
     ret h).

(** ** [device_list]: the remaining members *)

(** [front()] and [back()]: [*begin()] and [*(begin() + size() - 1)]. *)
Definition front : method device_list pointer := deref_at 0.

Definition back : method device_list pointer :=
  l ← this;
  deref_at (size l - 1).

(** [exchange11(other.countDevices, 0)] and
    [exchange11(other.deviceList, nullptr)]. *)
Definition exchange_countDevices (New_val : Z) : method device_list Z :=
  l ← this;
  set_this (fun l' => DeviceList New_val (deviceList l')) ;;
  ret (countDevices l).

Definition exchange_deviceList (New_val : pointer) : method device_list pointer :=
  l ← this;
  set_this (fun l' => DeviceList (countDevices l') New_val) ;;
  ret (deviceList l).

(** [device_list(device_list&& other) noexcept]: runs on [other] and
    yields the new object. *)
Definition device_list_move_ctor : method device_list device_list :=
  c ← exchange_countDevices 0;
  d ← exchange_deviceList nullptr;
  ret (DeviceList c d).

(** The statements of [operator=(device_list&& other)] after the test
    [this == &other], on the pair of the two distinct objects. *)
Definition device_list_move_assign_body : method (device_list * device_list) unit :=
  c ← on_other (exchange_countDevices 0);
  on_target (set_this (fun l => DeviceList c (deviceList l))) ;;
  d ← on_other (exchange_deviceList nullptr);
  on_target (set_this (fun l => DeviceList (countDevices l) d)).

Definition device_list_move_assign (this_ other : loc)
  : method (gmap loc device_list) unit :=
  fun s =>
    if bool_decide (this_ = other) then (returned tt, s)
    else
      match fst s !! this_, fst s !! other with
      | Some t, Some o =>
          let (r, s') := device_list_move_assign_body ((t, o), snd s) in
          (r, (<[other := snd (fst s')]> (<[this_ := fst (fst s')]> (fst s)), snd s'))
      | _, _ => (returned tt, s)
      end.

End Wrappers.

(** ** Observations used in the statements *)

Section Observations.

Context {N : Type} `{LibUsb N}.

(** The return codes of the native release calls for the interfaces [l],
    issued in order on the handle [p], and the native state they leave. *)
Fixpoint release_all (p : pointer) (l : list Z) (n : N) : list Z * N :=
  match l with
  | [] => ([], n)
  | i :: l' =>
      let (rc, n1) := libusb_release_interface p i n in
      let (rcs, n2) := release_all p l' n1 in
      (rc :: rcs, n2)
  end.

(** The messages [reset] logs for the return codes [rcs]: one per failure. *)
Definition reset_entries (rcs : list Z) : list log_entry :=
  map (fun rc => LogEntry MVLOG_ERROR "reset" 298 (failed_message "reset" rc))
      (List.filter (fun rc => rc <? 0) rcs).

(** What disposing the stored pointer [p] does: nothing for the null
    pointer, otherwise the native call [c]. *)
Definition disposed (p : pointer) (f : pointer -> N -> N) (n : N) : N :=
  if p =? nullptr then n else f p n.

Definition dispose_calls (p : pointer) (c : pointer -> native_call) : list native_call :=
  if p =? nullptr then [] else [c p].

(** The recorded claimed set is duplicate free and every recorded
    interface is claimed at the native layer through the owned handle. *)
Definition claimed_subset (h : device_handle) (w : world N) : Prop :=
  NoDup (claimedInterfaces h)
  /\ forall i : Z, i ∈ claimedInterfaces h -> is_claimed (native w) (handle_base h) i = true.

(** The native calls issued while [m] ran from [s]. *)
Definition calls_of {O A} (m : method O A) (s : O * world N) : list native_call :=
  drop (length (calls (snd s))) (calls (snd (snd (m s)))).

(** A caller's sequence of [claim_interface] and [release_interface]
    calls on one handle, the caller catching what a call raises and
    carrying on with the next. *)
Inductive interface_op : Type :=
| op_claim (interface_number : Z)
| op_release (interface_number : Z).

Definition run_interface_op (o : interface_op) : method device_handle unit :=
  match o with
  | op_claim n => claim_interface n
  | op_release n => release_interface n
  end.

Definition catching {S} (m : eff S unit) : eff S unit :=
  fun s => (returned tt, snd (m s)).

Definition run_interface_ops (ops : list interface_op) : method device_handle unit :=
  for_each (fun o => catching (run_interface_op o)) ops.

(** A caller's sequence of [reset] calls on one Usb Device. *)
Definition usb_device_resets (ps : list pointer) : method usb_device unit :=
  for_each usb_device_reset ps.

End Observations.

(** ** Contracts of the native layer

    What the documentation of libusb promises for the functions above, as
    far as the properties below depend on it. *)

(** [libusb_strerror] never returns an empty description. *)
Class StrerrorLaws (N : Type) `{LibUsb N} : Prop := {
  strerror_nonempty : forall c : Z, libusb_strerror c <> ""
}.

(** [libusb_ref_device] returns its argument and adds one to its count;
    [libusb_unref_device] subtracts one; other counts are untouched. *)
Class RefCountLaws (N : Type) `{LibUsb N} : Prop := {
  ref_device_returns : forall (d : pointer) (n : N),
    fst (libusb_ref_device d n) = d;
  ref_device_counts : forall (d d' : pointer) (n : N),
    d <> nullptr ->
    refcnt (snd (libusb_ref_device d n)) d' = refcnt n d' + (if decide (d' = d) then 1 else 0);
  unref_device_counts : forall (d d' : pointer) (n : N),
    d <> nullptr ->
    refcnt (libusb_unref_device d n) d' = refcnt n d' - (if decide (d' = d) then 1 else 0)
}.

(** A successful claim makes the interface claimed; a failed release leaves
    it as it was; calls on one (handle, interface) pair leave the other
    pairs alone, and closing a handle leaves the other handles alone. *)
Class ClaimLaws (N : Type) `{LibUsb N} : Prop := {
  claim_success : forall (h : pointer) (i : Z) (n : N),
    0 <= fst (libusb_claim_interface h i n) ->
    is_claimed (snd (libusb_claim_interface h i n)) h i = true;
  claim_frame : forall (h h' : pointer) (i i' : Z) (n : N),
    (h', i') <> (h, i) ->
    is_claimed (snd (libusb_claim_interface h i n)) h' i' = is_claimed n h' i';
  release_failure : forall (h : pointer) (i : Z) (n : N),
    fst (libusb_release_interface h i n) < 0 ->
    is_claimed (snd (libusb_release_interface h i n)) h i = is_claimed n h i;
  release_frame : forall (h h' : pointer) (i i' : Z) (n : N),
    (h', i') <> (h, i) ->
    is_claimed (snd (libusb_release_interface h i n)) h' i' = is_claimed n h' i';
  close_frame : forall (h h' : pointer) (i : Z) (n : N),
    h' <> h ->
    is_claimed (libusb_close h n) h' i = is_claimed n h' i
}.

(** ** A reference native layer

    A small executable stand-in for libusb, used to run the wrappers on
    concrete inputs: reference counts, claimed interfaces and open handles
    are tables, and [sim_rc] scripts the return code of each call (zero: the
    call proceeds; negative: it fails with that code and changes nothing). *)
Module Sim.

Record state : Type := State {
  sim_rc : native_call -> Z;
  sim_refcnt : pointer -> Z;
  sim_claimed : pointer -> Z -> bool;
  sim_device_of : pointer -> pointer;
  sim_array : pointer -> list pointer;
  sim_connected : list pointer;
  sim_fresh : pointer
}.

Definition upd {A} (f : pointer -> A) (k : pointer) (v : A) : pointer -> A :=
  fun k' => if k' =? k then v else f k'.

Definition add_ref (d : pointer) (delta : Z) (f : pointer -> Z) : pointer -> Z :=
  upd f d (f d + delta).

(** The descriptions of [libusb_strerror] in the English locale. *)
Definition strerror (c : Z) : string :=
  match c with
  | 0 => "Success"
  | -1 => "Input/Output Error"
  | -2 => "Invalid parameter"
  | -3 => "Access denied (insufficient permissions)"
  | -4 => "No such device (it may have been disconnected)"
  | -5 => "Entity not found"
  | -6 => "Resource busy"
  | -7 => "Operation timed out"
  | -8 => "Overflow"
  | -9 => "Pipe error"
  | -10 => "System call interrupted (perhaps due to signal)"
  | -11 => "Insufficient memory"
  | -12 => "Operation not supported or unimplemented on this platform"
  | _ => "Other error"
  end.

Definition get_device_list (ctx : pointer) (s : state) : (Z * pointer) * state :=
  let rc := sim_rc s (call_libusb_get_device_list ctx) in
  if rc <? 0 then ((rc, nullptr), s)
  else
    ((Z.of_nat (length (sim_connected s)), sim_fresh s),
     State (sim_rc s)
           (fold_right (fun d f => add_ref d 1 f) (sim_refcnt s) (sim_connected s))
           (sim_claimed s) (sim_device_of s)
           (upd (sim_array s) (sim_fresh s) (sim_connected s))
           (sim_connected s) (sim_fresh s + 1)).

Definition free_device_list (l : pointer) (unref_devices : Z) (s : state) : state :=
  State (sim_rc s)
        (if unref_devices =? 0 then sim_refcnt s
         else fold_right (fun d f => add_ref d (-1) f) (sim_refcnt s) (sim_array s l))
        (sim_claimed s) (sim_device_of s)
        (upd (sim_array s) l []) (sim_connected s) (sim_fresh s).

Definition ref_device (d : pointer) (s : state) : pointer * state :=
  (d, State (sim_rc s) (add_ref d 1 (sim_refcnt s)) (sim_claimed s) (sim_device_of s)
            (sim_array s) (sim_connected s) (sim_fresh s)).

Definition unref_device (d : pointer) (s : state) : state :=
  State (sim_rc s) (add_ref d (-1) (sim_refcnt s)) (sim_claimed s) (sim_device_of s)
        (sim_array s) (sim_connected s) (sim_fresh s).

Definition open_ (d : pointer) (s : state) : (Z * pointer) * state :=
  let rc := sim_rc s (call_libusb_open d) in
  if rc <? 0 then ((rc, nullptr), s)
  else
    ((0, sim_fresh s),
     State (sim_rc s) (add_ref d 1 (sim_refcnt s)) (sim_claimed s)
           (upd (sim_device_of s) (sim_fresh s) d)
           (sim_array s) (sim_connected s) (sim_fresh s + 1)).

Definition close (h : pointer) (s : state) : state :=
  State (sim_rc s) (add_ref (sim_device_of s h) (-1) (sim_refcnt s))
        (upd (sim_claimed s) h (fun _ => false))
        (sim_device_of s) (sim_array s) (sim_connected s) (sim_fresh s).

Definition set_claimed (h : pointer) (i : Z) (b : bool) (s : state) : state :=
  State (sim_rc s) (sim_refcnt s)
        (upd (sim_claimed s) h (fun i' => if i' =? i then b else sim_claimed s h i'))
        (sim_device_of s) (sim_array s) (sim_connected s) (sim_fresh s).

Definition claim_interface_ (h : pointer) (i : Z) (s : state) : Z * state :=
  let rc := sim_rc s (call_libusb_claim_interface h i) in
  if rc <? 0 then (rc, s) else (0, set_claimed h i true s).

Definition release_interface_ (h : pointer) (i : Z) (s : state) : Z * state :=
  let rc := sim_rc s (call_libusb_release_interface h i) in
  if rc <? 0 then (rc, s)
  else if sim_claimed s h i then (0, set_claimed h i false s)
  else (-5, s).

#[global] Instance sim_libusb : LibUsb state := {
  libusb_strerror := strerror;
  libusb_get_device_list := get_device_list;
  libusb_free_device_list := free_device_list;
  libusb_ref_device := ref_device;
  libusb_unref_device := unref_device;
  libusb_open := open_;
  libusb_close := close;
  libusb_claim_interface := claim_interface_;
  libusb_release_interface := release_interface_;
  refcnt := sim_refcnt;
  is_claimed := sim_claimed;
  device_array := fun s p i => nth (Z.to_nat i) (sim_array s p) nullptr
}.

(** A native state with the devices [devs] connected, each held once by
    the library, nothing open and nothing claimed; [rc] scripts failures. *)
Definition init (rc : native_call -> Z) (devs : list pointer) : state :=
  State rc (fun d => if bool_decide (d ∈ devs) then 1 else 0) (fun _ _ => false)
        (fun _ => nullptr) (fun _ => []) devs 1000.

Definition ok : native_call -> Z := fun _ => 0.

Definition start (rc : native_call -> Z) (devs : list pointer) : world state :=
  World (init rc devs) [] [].

(** A native state in which device 5 is connected and has been opened
    twice, through the handles 1000 and 1001. *)
Definition two_open : world state :=
  World (snd (open_ 5 (snd (open_ 5 (init ok [5]))))) [] [].

(** The script under which the native release of interface 2 fails with
    [LIBUSB_ERROR_NO_DEVICE] and every other call proceeds. *)
Definition release_2_fails : native_call -> Z :=
  fun c => match c with call_libusb_release_interface _ 2 => -4 | _ => 0 end.

(** The script under which the native open is denied. *)
Definition open_denied : native_call -> Z :=
  fun c => match c with call_libusb_open _ => -3 | _ => 0 end.

End Sim.

(** * Properties *)

(** ** Running the monad *)

Lemma bind_returned {S A B} (m : eff S A) (k : A -> eff S B) (s s' : S) (a : A) :
  m s = (returned a, s') -> (m ≫= k) s = k a s'.
Proof. intros E. unfold mbind, eff_bind, bind. now rewrite E. Qed.

Lemma bind_thrown {S A B} (m : eff S A) (k : A -> eff S B) (s s' : S) (e : exn) :
  m s = (thrown e, s') -> (m ≫= k) s = (thrown e, s').
Proof. intros E. unfold mbind, eff_bind, bind. now rewrite E. Qed.

Ltac eff_unfold :=
  repeat progress
    (unfold mbind, eff_bind, bind, mret, eff_ret, ret, throw, gets, modify, zoom,
       this, set_this, in_world, invoke_void, invoke, with_entry;
     cbn).

Lemma static_cast_int_id (x : Z) : INT_MIN <= x <= INT_MAX -> static_cast_int x = x.
Proof.
  unfold INT_MIN, INT_MAX, static_cast_int. intros Hx.
  rewrite Z.mod_small by lia. lia.
Qed.

Lemma static_cast_size_type_id (x : Z) : 0 <= x < 2 ^ 64 -> static_cast_size_type x = x.
Proof. intros Hx. unfold static_cast_size_type. now apply Z.mod_small. Qed.

Lemma sim_strerror_laws : StrerrorLaws Sim.state.
Proof.
  constructor. intros c. cbn. unfold Sim.strerror.
  destruct c as [|p|p]; try discriminate.
  do 4 (destruct p as [p|p|]; try discriminate).
Qed.

Section CheckedInvocation.

Context {N : Type} `{LibUsb N}.

Lemma call_log_throw_nonneg {O} lvl thr fw ln (func : method O Z) s s1 rc :
  func s = (returned rc, s1) -> 0 <= rc ->
  call_log_throw lvl thr fw ln func s = (returned rc, s1).
Proof.
  intros E Hrc. unfold call_log_throw.
  rewrite (bind_returned _ _ _ _ _ E).
  destruct (Z.ltb_spec rc 0); [lia|]. reflexivity.
Qed.

Lemma call_log_throw_neg_nothrow {O} lvl fw ln (func : method O Z) s s1 rc :
  func s = (returned rc, s1) -> rc < 0 ->
  call_log_throw lvl false fw ln func s
  = (returned rc, with_entry s1 (LogEntry lvl fw ln (failed_message fw rc))).
Proof.
  intros E Hrc. unfold call_log_throw.
  rewrite (bind_returned _ _ _ _ _ E).
  destruct (Z.ltb_spec rc 0); [|lia]. reflexivity.
Qed.

Lemma call_log_throw_neg_throw {O} lvl fw ln (func : method O Z) s s1 rc :
  func s = (returned rc, s1) -> rc < 0 ->
  call_log_throw lvl true fw ln func s
  = (thrown (usb_error_of_code (static_cast_int rc)),
     with_entry s1 (LogEntry lvl fw ln (failed_message fw rc))).
Proof.
  intros E Hrc. unfold call_log_throw.
  rewrite (bind_returned _ _ _ _ _ E).
  destruct (Z.ltb_spec rc 0); [|lia]. reflexivity.
Qed.

Lemma call_log_throw_func_thrown {O} lvl thr fw ln (func : method O Z) s s1 e :
  func s = (thrown e, s1) ->
  call_log_throw lvl thr fw ln func s = (thrown e, s1).
Proof. intros E. unfold call_log_throw. now rewrite (bind_thrown _ _ _ _ _ E). Qed.

Lemma open_failure (dev : usb_device) (w : world N) :
  let rc := fst (fst (libusb_open dev (native w))) in
  rc < 0 ->
  exists w',
    open (dev, w) = (thrown (usb_error_of_code (static_cast_int rc)), (dev, w'))
    /\ logged w' = logged w ++ [LogEntry MVLOG_ERROR "open" 365 (failed_message "open" rc)].
Proof.
  cbn zeta. intros Hrc.
  unfold open, with_local, CALL_LOG_ERROR_THROW, call_log_throw, libusb_open_into,
    device_handle_reset, device_handle_dtor, device_handle_reset, on_base,
    unique_ptr_get, unique_ptr_reset, unique_ptr_destroy, unique_resource_deleter,
    set_claimedInterfaces, get, libusb_close_, logprintf, throw_conditional,
    device_handle_default, for_each.
  eff_unfold.
  destruct (libusb_open dev (native w)) as [[rc out] n'] eqn:E. eff_unfold.
  cbn in Hrc. destruct (Z.ltb_spec rc 0); [|lia]. eff_unfold.
  destruct (out =? nullptr); eff_unfold; eexists; split; reflexivity.
Qed.

(** C5. Checked invocation: a non-negative result of the native function
    is returned unchanged, with nothing logged and nothing raised.  A
    negative result is logged once at the configured severity; under the
    no-throw policy it is then returned unchanged, under the throw policy a
    [usb_error] is raised that carries the result converted to [int] (the
    result itself whenever it fits an [int], as every libusb code does)
    and the non-empty description libusb gives for it.  In particular
    [open()] raises such an error carrying the code of a failed native
    open, for instance -3. *)
Theorem call_log_throw_checked :
  StrerrorLaws N ->
  (forall (O : Type) (Loglevel : mvLog_t) (Throw : bool) (func_within : string)
          (line_number : Z) (func : method O Z) (s s1 : O * world N) (rc : Z),
      func s = (returned rc, s1) ->
      (0 <= rc ->
       call_log_throw Loglevel Throw func_within line_number func s = (returned rc, s1))
      /\ (rc < 0 ->
          let s2 := with_entry s1 (LogEntry Loglevel func_within line_number
                                            (failed_message func_within rc)) in
          (Throw = false ->
           call_log_throw Loglevel Throw func_within line_number func s = (returned rc, s2))
          /\ (Throw = true ->
              exists e : exn,
                call_log_throw Loglevel Throw func_within line_number func s = (thrown e, s2)
                /\ exn_code e = Some (static_cast_int rc)
                /\ (INT_MIN <= rc -> exn_code e = Some rc)
                /\ exn_what e <> "")))
  /\ (forall (dev : usb_device) (w : world N) (rc : Z),
        fst (fst (libusb_open dev (native w))) = rc ->
        INT_MIN <= rc < 0 ->
        exists (e : exn) (s' : usb_device * world N),
          open (dev, w) = (thrown e, s') /\ exn_code e = Some rc /\ exn_what e <> "").
Proof.
  intros Hstr. split.
  - intros O lvl thr fw ln func s s1 rc E. split.
    + intros Hrc. now apply call_log_throw_nonneg.
    + intros Hrc s2. split.
      * intros ->. now apply call_log_throw_neg_nothrow.
      * intros ->. exists (usb_error_of_code (static_cast_int rc)).
        split; [now apply call_log_throw_neg_throw|].
        split; [reflexivity|]. split.
        -- intros Hmin. cbn. f_equal. apply static_cast_int_id. unfold INT_MAX. lia.
        -- apply strerror_nonempty.
  - intros dev w rc <- Hrc.
    destruct (open_failure dev w) as (w' & E & _); [lia|].
    rewrite static_cast_int_id in E by (unfold INT_MAX; lia).
    eexists _, _. split; [exact E|]. split; [reflexivity|]. apply strerror_nonempty.
Qed.

End CheckedInvocation.

Lemma call_log_throw_checked_witness :
  (exists (e : exn) (s' : usb_device * world Sim.state),
      open (5, Sim.start Sim.open_denied [5]) = (thrown e, s')
      /\ exn_code e = Some (-3) /\ exn_what e <> "")
  /\ call_log_throw MVLOG_WARN false "get_configuration" 336
       (in_world (invoke (call_libusb_release_interface 7 1)
                         (libusb_release_interface 7 1)))
       (tt, Sim.start Sim.ok [5])
     = (returned (-5),
        with_entry (tt, World (Sim.init Sim.ok [5]) [call_libusb_release_interface 7 1] [])
          (LogEntry MVLOG_WARN "get_configuration" 336
             (failed_message "get_configuration" (-5)))).
Proof.
  split.
  - apply (proj2 (call_log_throw_checked sim_strerror_laws) 5
             (Sim.start Sim.open_denied [5]) (-3)).
    + reflexivity.
    + unfold INT_MIN. lia.
  - apply (proj1 (call_log_throw_checked sim_strerror_laws) unit MVLOG_WARN false
             "get_configuration" 336 _ (tt, Sim.start Sim.ok [5]) _ (-5)).
    + reflexivity.
    + lia.
    + reflexivity.
Defined.

(** ** Device handles: cleanup *)

Section DeviceHandleCleanup.

Context {N : Type} `{LibUsb N}.

Lemma reset_release_eq (i : Z) (h : device_handle) (w : world N) :
  reset_release i (h, w)
  = (returned tt,
     (h, World (snd (libusb_release_interface (handle_base h) i (native w)))
               (calls w ++ [call_libusb_release_interface (handle_base h) i])
               (logged w ++ reset_entries [fst (libusb_release_interface (handle_base h) i (native w))]))).
Proof.
  unfold reset_release, call_log_throw, get, on_base, unique_ptr_get, logprintf,
    throw_conditional, reset_entries.
  eff_unfold.
  destruct (libusb_release_interface (handle_base h) i (native w)) as [rc n1]. cbn.
  destruct h as [p l]. cbn.
  destruct (rc <? 0); cbn; [reflexivity|].
  now rewrite app_nil_r.
Qed.

Lemma reset_entries_cons (rc : Z) (rcs : list Z) :
  reset_entries (rc :: rcs) = reset_entries [rc] ++ reset_entries rcs.
Proof. unfold reset_entries. cbn. now destruct (rc <? 0). Qed.

(** The loop of [reset] never raises: it issues the native release call
    for every recorded interface, in order, and logs the failures. *)
Lemma reset_loop_eq (l : list Z) (h : device_handle) (w : world N) :
  for_each reset_release l (h, w)
  = (returned tt,
     (h, World (snd (release_all (handle_base h) l (native w)))
               (calls w ++ map (call_libusb_release_interface (handle_base h)) l)
               (logged w ++ reset_entries (fst (release_all (handle_base h) l (native w)))))).
Proof.
  revert w. induction l as [|i l IH]; intros w.
  - cbn. unfold ret, reset_entries. cbn. rewrite !app_nil_r. now destruct w.
  - cbn [for_each]. rewrite (bind_returned _ _ _ _ _ (reset_release_eq i h w)).
    rewrite IH. cbn [native calls logged release_all map].
    destruct (libusb_release_interface (handle_base h) i (native w)) as [rc n1].
    cbn [fst snd].
    destruct (release_all (handle_base h) l n1) as [rcs n2]. cbn [fst snd].
    rewrite (reset_entries_cons rc rcs), <- !app_assoc. reflexivity.
Qed.

Lemma base_reset_eq (ptr : pointer) (h : device_handle) (w : world N) :
  on_base (unique_ptr_reset libusb_close_ ptr) (h, w)
  = (returned tt,
     (DeviceHandle ptr (claimedInterfaces h),
      World (disposed (handle_base h) libusb_close (native w))
            (calls w ++ dispose_calls (handle_base h) call_libusb_close)
            (logged w))).
Proof.
  unfold on_base, unique_ptr_reset, unique_resource_deleter, libusb_close_,
    disposed, dispose_calls.
  eff_unfold. destruct h as [p l]. cbn.
  destruct (p =? nullptr); cbn; [|reflexivity].
  rewrite app_nil_r. now destruct w.
Qed.

(** [reset(ptr)] in full. *)
Lemma device_handle_reset_eq (ptr : pointer) (h : device_handle) (w : world N) :
  let p := handle_base h in
  let l := claimedInterfaces h in
  device_handle_reset ptr (h, w)
  = (returned tt,
     (DeviceHandle ptr l,
      World (disposed p libusb_close (snd (release_all p l (native w))))
            (calls w ++ map (call_libusb_release_interface p) l
                     ++ dispose_calls p call_libusb_close)
            (logged w ++ reset_entries (fst (release_all p l (native w)))))).
Proof.
  intros p l. unfold device_handle_reset.
  rewrite (bind_returned this _ (h, w) (h, w) h) by reflexivity.
  rewrite (bind_returned _ _ _ _ _ (reset_loop_eq _ h w)).
  rewrite base_reset_eq. cbn [native calls logged]. now rewrite <- app_assoc.
Qed.

(** The destructor in full. *)
Lemma device_handle_dtor_eq (h : device_handle) (w : world N) :
  let p := handle_base h in
  let l := claimedInterfaces h in
  device_handle_dtor (h, w)
  = (returned tt,
     (device_handle_default,
      World (disposed p libusb_close (snd (release_all p l (native w))))
            (calls w ++ map (call_libusb_release_interface p) l
                     ++ dispose_calls p call_libusb_close)
            (logged w ++ reset_entries (fst (release_all p l (native w)))))).
Proof.
  intros p l. unfold device_handle_dtor.
  rewrite (bind_returned _ _ _ _ _ (device_handle_reset_eq nullptr h w)).
  unfold set_claimedInterfaces, on_base, unique_ptr_destroy, device_handle_default.
  eff_unfold. reflexivity.
Qed.

(** [reset] leaves the recorded claimed set as it was. *)
Lemma device_handle_reset_keeps_claimedInterfaces (ptr : pointer) (h : device_handle) (w : world N) :
  claimedInterfaces (fst (snd (device_handle_reset ptr (h, w)))) = claimedInterfaces h.
Proof. now rewrite device_handle_reset_eq. Qed.

(** C3. Destruction of a handle whose claimed set is 1, 2, 3 (claimed in
    that order) returns normally whatever the native release calls
    return - so also when the release of interface 2 fails - after
    issuing the native release of 1, 2 and 3 in that order and then the
    close of the channel; each failed release is logged. *)
Theorem dtor_releases_in_order_then_closes (p : pointer) (w : world N) :
  let r := device_handle_dtor (DeviceHandle p [1; 2; 3], w) in
  fst r = returned tt
  /\ calls (snd (snd r))
     = calls w
       ++ [call_libusb_release_interface p 1;
           call_libusb_release_interface p 2;
           call_libusb_release_interface p 3]
       ++ (if p =? nullptr then [] else [call_libusb_close p])
  /\ logged (snd (snd r))
     = logged w ++ reset_entries (fst (release_all p [1; 2; 3] (native w))).
Proof.
  cbn zeta. rewrite device_handle_dtor_eq. cbn [fst snd calls logged].
  repeat split; reflexivity.
Qed.

End DeviceHandleCleanup.

(** The same on the reference native layer, with the release of
    interface 2 failing: three releases, the close, one logged error. *)
Example dtor_with_failing_release :
  let r := device_handle_dtor (DeviceHandle 1000 [1; 2; 3],
                               World (Sim.set_claimed 1000 1 true
                                        (Sim.set_claimed 1000 2 true
                                           (Sim.set_claimed 1000 3 true
                                              (Sim.init Sim.release_2_fails [5]))))
                                     [] []) in
  fst r = returned tt
  /\ calls (snd (snd r))
     = [call_libusb_release_interface 1000 1;
        call_libusb_release_interface 1000 2;
        call_libusb_release_interface 1000 3;
        call_libusb_close 1000]
  /\ logged (snd (snd r))
     = [LogEntry MVLOG_ERROR "reset" 298
          "dai::libusb failed reset(): No such device (it may have been disconnected)"].
Proof. vm_compute. repeat split; reflexivity. Qed.

(** C2. [reset] on a reachable input: interface 1 is claimed through the
    handle 1000, then the handle is reset to the raw handle 1001.  The
    release and the close are issued, yet the claimed set still records
    interface 1, which is not claimed through 1001; a later
    [claim_interface(1)] is therefore skipped. *)
Theorem reset_does_not_clear_claimed_set :
  let r := (claim_interface 1 ;; device_handle_reset 1001)
             (DeviceHandle 1000 [], Sim.two_open) in
  fst r = returned tt
  /\ fst (snd r) = DeviceHandle 1001 [1]
  /\ calls (snd (snd r))
     = [call_libusb_claim_interface 1000 1;
        call_libusb_release_interface 1000 1;
        call_libusb_close 1000]
  /\ logged (snd (snd r)) = []
  /\ is_claimed (native (snd (snd r))) 1001 1 = false
  /\ calls (snd (snd (claim_interface 1 (snd r)))) = calls (snd (snd r)).
Proof. vm_compute. repeat split; reflexivity. Qed.

(** C1. On the same input the invariant holds before [reset] and fails
    after it: the recorded interface 1 is not claimed at the native layer
    on the handle now owned. *)
Theorem reset_breaks_claimed_subset :
  let s1 := snd (claim_interface 1 (DeviceHandle 1000 [], Sim.two_open)) in
  let s2 := snd (device_handle_reset 1001 s1) in
  claimed_subset (fst s1) (snd s1)
  /\ fst s2 = DeviceHandle 1001 [1]
  /\ is_claimed (native (snd s2)) 1001 1 = false
  /\ ~ claimed_subset (fst s2) (snd s2).
Proof.
  cbn zeta. split; [|split; [reflexivity|split; [reflexivity|]]].
  - split.
    + vm_compute. apply NoDup_singleton.
    + intros i Hi. vm_compute in Hi. apply list_elem_of_singleton in Hi. subst i.
      vm_compute. reflexivity.
  - intros [_ Hc]. specialize (Hc 1).
    assert (Hin : (1 : Z) ∈ claimedInterfaces
                    (fst (snd (device_handle_reset 1001
                       (snd (claim_interface 1 (DeviceHandle 1000 [], Sim.two_open))))))).
    { vm_compute. apply list_elem_of_singleton. reflexivity. }
    specialize (Hc Hin). vm_compute in Hc. discriminate.
Qed.

(** ** Device handles: claiming and releasing interfaces *)

Lemma std_find_None (x : Z) (l : list Z) : x ∉ l -> std_find x l = None.
Proof.
  intros Hx. unfold std_find.
  replace (list_find (fun y => y = x) l) with (@None (nat * Z)); [reflexivity|].
  symmetry. apply list_find_None, Forall_forall. intros y Hy ->. contradiction.
Qed.

Lemma std_find_Some (x : Z) (l : list Z) :
  x ∈ l -> exists i : nat, std_find x l = Some i /\ l !! i = Some x.
Proof.
  intros Hx. unfold std_find.
  destruct (list_find_elem_of (fun y => y = x) l x Hx eq_refl) as [[i y] E].
  rewrite E. exists i. split; [reflexivity|].
  apply list_find_Some in E as (Hl & -> & _). exact Hl.
Qed.

Section DeviceHandleInterfaces.

Context {N : Type} `{LibUsb N}.

Lemma claim_interface_known (n : Z) (h : device_handle) (w : world N) :
  n ∈ claimedInterfaces h -> claim_interface n (h, w) = (returned tt, (h, w)).
Proof.
  intros Hn. destruct (std_find_Some n _ Hn) as (i & E & _).
  unfold claim_interface. eff_unfold. now rewrite E.
Qed.

Lemma claim_interface_new (n : Z) (h : device_handle) (w : world N) :
  n ∉ claimedInterfaces h ->
  let p := handle_base h in
  let r := libusb_claim_interface p n (native w) in
  let w1 := World (snd r) (calls w ++ [call_libusb_claim_interface p n]) (logged w) in
  claim_interface n (h, w)
  = if fst r <? 0
    then (thrown (usb_error_of_code (static_cast_int (fst r))),
          with_entry (h, w1)
            (LogEntry MVLOG_ERROR "claim_interface" 314
                      (failed_message "claim_interface" (fst r))))
    else (returned tt, (DeviceHandle p (claimedInterfaces h ++ [n]), w1)).
Proof.
  intros Hn. cbn zeta.
  unfold claim_interface, CALL_LOG_ERROR_THROW, call_log_throw, get, on_base,
    unique_ptr_get, set_claimedInterfaces, logprintf, throw_conditional.
  eff_unfold. rewrite (std_find_None n _ Hn).
  destruct h as [p l]. cbn.
  destruct (libusb_claim_interface p n (native w)) as [rc n1]. cbn.
  destruct (rc <? 0); reflexivity.
Qed.

Lemma release_interface_unknown (n : Z) (h : device_handle) (w : world N) :
  n ∉ claimedInterfaces h -> release_interface n (h, w) = (returned tt, (h, w)).
Proof.
  intros Hn. unfold release_interface. eff_unfold. now rewrite (std_find_None n _ Hn).
Qed.

Lemma release_interface_known (n : Z) (h : device_handle) (w : world N) (i : nat) :
  std_find n (claimedInterfaces h) = Some i ->
  let p := handle_base h in
  let r := libusb_release_interface p n (native w) in
  let w1 := World (snd r) (calls w ++ [call_libusb_release_interface p n]) (logged w) in
  release_interface n (h, w)
  = if fst r <? 0
    then (thrown (usb_error_of_code (static_cast_int (fst r))),
          with_entry (h, w1)
            (LogEntry MVLOG_ERROR "release_interface" 323
                      (failed_message "release_interface" (fst r))))
    else (returned tt, (DeviceHandle p (delete i (claimedInterfaces h)), w1)).
Proof.
  intros E. cbn zeta.
  unfold release_interface, CALL_LOG_ERROR_THROW, call_log_throw, get, on_base,
    unique_ptr_get, set_claimedInterfaces, logprintf, throw_conditional.
  eff_unfold. rewrite E.
  destruct h as [p l]. cbn.
  destruct (libusb_release_interface p n (native w)) as [rc n1]. cbn.
  destruct (rc <? 0); reflexivity.
Qed.

(** C4. [claim_interface(n)] does nothing when [n] is already recorded.
    Otherwise it issues the native claim call once; on a negative result
    it raises a [usb_error] carrying that code and leaves the claimed set
    as it was, on success it records [n].  Two calls in a row, starting
    with [n] not recorded and a successful native claim, issue the native
    claim once and leave [n] recorded exactly once. *)
Theorem claim_interface_once (n : Z) (h : device_handle) (w : world N) :
  let p := handle_base h in
  let rc := fst (libusb_claim_interface p n (native w)) in
  let w1 := World (snd (libusb_claim_interface p n (native w)))
                  (calls w ++ [call_libusb_claim_interface p n]) (logged w) in
  let h1 := DeviceHandle p (claimedInterfaces h ++ [n]) in
  (n ∈ claimedInterfaces h -> claim_interface n (h, w) = (returned tt, (h, w)))
  /\ (n ∉ claimedInterfaces h -> rc < 0 ->
      exists code what,
        claim_interface n (h, w)
        = (thrown (usb_error code what),
           with_entry (h, w1)
             (LogEntry MVLOG_ERROR "claim_interface" 314
                       (failed_message "claim_interface" rc)))
        /\ code = static_cast_int rc
        /\ (INT_MIN <= rc -> code = rc))
  /\ (n ∉ claimedInterfaces h -> 0 <= rc ->
      claim_interface n (h, w) = (returned tt, (h1, w1))
      /\ (claim_interface n ;; claim_interface n) (h, w) = (returned tt, (h1, w1))
      /\ count_occ Z.eq_dec (claimedInterfaces h1) n = 1%nat).
Proof.
  cbn zeta. split; [apply claim_interface_known|]. split.
  - intros Hn Hrc. rewrite (claim_interface_new n h w Hn).
    destruct (Z.ltb_spec (fst (libusb_claim_interface (handle_base h) n (native w))) 0);
      [|lia].
    eexists _, _. split; [reflexivity|]. split; [reflexivity|].
    intros Hmin. apply static_cast_int_id. unfold INT_MAX. lia.
  - intros Hn Hrc.
    assert (E : claim_interface n (h, w)
                = (returned tt,
                   (DeviceHandle (handle_base h) (claimedInterfaces h ++ [n]),
                    World (snd (libusb_claim_interface (handle_base h) n (native w)))
                          (calls w ++ [call_libusb_claim_interface (handle_base h) n])
                          (logged w)))).
    { rewrite (claim_interface_new n h w Hn).
      destruct (Z.ltb_spec (fst (libusb_claim_interface (handle_base h) n (native w))) 0);
        [lia|reflexivity]. }
    split; [exact E|]. split.
    + rewrite (bind_returned _ _ _ _ _ E). apply claim_interface_known.
      cbn. apply elem_of_app. right. apply list_elem_of_singleton. reflexivity.
    + cbn [claimedInterfaces]. rewrite count_occ_app. cbn.
      destruct (Z.eq_dec n n); [|contradiction].
      rewrite (proj1 (count_occ_not_In Z.eq_dec _ n)); [reflexivity|].
      intros Hin. apply Hn, list_elem_of_In. exact Hin.
Qed.

Lemma device_handle_release_eq (h : device_handle) (w : world N) :
  device_handle_release (h, w) = (returned (handle_base h), (device_handle_default, w)).
Proof.
  unfold device_handle_release, set_claimedInterfaces, on_base, unique_ptr_release,
    device_handle_default.
  eff_unfold. now destruct w.
Qed.

(** C6. [release()] returns the raw handle and empties the object - null
    pointer, empty claimed set - without any native call; destroying the
    emptied object issues no native call either, so that after the caller
    has closed the returned handle by hand it has been closed once. *)
Theorem release_issues_no_native_call (h : device_handle) (w : world N) :
  device_handle_release (h, w) = (returned (handle_base h), (device_handle_default, w))
  /\ device_handle_dtor (device_handle_default, w) = (returned tt, (device_handle_default, w))
  /\ (raw ← device_handle_release; in_world (libusb_close_ raw) ;; device_handle_dtor) (h, w)
     = (returned tt,
        (device_handle_default,
         World (libusb_close (handle_base h) (native w))
               (calls w ++ [call_libusb_close (handle_base h)])
               (logged w))).
Proof.
  assert (Hd : forall w' : world N,
             device_handle_dtor (device_handle_default, w')
             = (returned tt, (device_handle_default, w'))).
  { intros w'. rewrite device_handle_dtor_eq. cbn.
    rewrite !app_nil_r. now destruct w'. }
  pose proof (device_handle_release_eq h w) as Hr.
  split; [exact Hr|]. split; [apply Hd|].
  rewrite (bind_returned _ _ _ _ _ Hr).
  assert (Hc : in_world (O := device_handle) (libusb_close_ (handle_base h))
                 (device_handle_default, w)
               = (returned tt,
                  (device_handle_default,
                   World (libusb_close (handle_base h) (native w))
                         (calls w ++ [call_libusb_close (handle_base h)])
                         (logged w)))).
  { unfold libusb_close_. eff_unfold. reflexivity. }
  rewrite (bind_returned _ _ _ _ _ Hc). apply Hd.
Qed.

End DeviceHandleInterfaces.

Lemma claim_interface_once_witness :
  let h := DeviceHandle 1000 [] in
  let w := Sim.two_open in
  let w1 := World (snd (libusb_claim_interface 1000 1 (native w)))
                  (calls w ++ [call_libusb_claim_interface 1000 1]) (logged w) in
  claim_interface 1 (h, w) = (returned tt, (DeviceHandle 1000 ([] ++ [1]), w1))
  /\ (claim_interface 1 ;; claim_interface 1) (h, w)
     = (returned tt, (DeviceHandle 1000 ([] ++ [1]), w1))
  /\ count_occ Z.eq_dec ([] ++ [1]) 1 = 1%nat.
Proof.
  apply (proj2 (proj2 (claim_interface_once 1 (DeviceHandle 1000 []) Sim.two_open))).
  - cbn. intros Hin. inversion Hin.
  - vm_compute. discriminate.
Defined.

(** ** The claimed-set invariant *)

Lemma delete_NoDup_not_elem (l : list Z) (i : nat) (x : Z) :
  NoDup l -> l !! i = Some x -> x ∉ delete i l.
Proof.
  intros Hnd Hi Hin. rewrite delete_take_drop in Hin.
  apply elem_of_app in Hin as [Hin|Hin].
  - apply elem_of_take in Hin as (k & Hk & Hlt).
    pose proof (NoDup_lookup _ _ _ _ Hnd Hi Hk). lia.
  - apply list_elem_of_lookup in Hin as (k & Hk). rewrite lookup_drop in Hk.
    pose proof (NoDup_lookup _ _ _ _ Hnd Hi Hk). lia.
Qed.

Section ClaimedSubset.

Context {N : Type} `{ClaimLaws N}.

Lemma claimed_subset_default (w : world N) : claimed_subset device_handle_default w.
Proof. split; [apply NoDup_nil_2|]. intros i Hi. inversion Hi. Qed.

(** [claim_interface] keeps the invariant, whether it returns or raises. *)
Lemma claim_interface_keeps_claimed_subset (n : Z) (h : device_handle) (w : world N) :
  claimed_subset h w ->
  claimed_subset (fst (snd (claim_interface n (h, w)))) (snd (snd (claim_interface n (h, w)))).
Proof.
  intros [Hnd Hc]. destruct (decide (n ∈ claimedInterfaces h)) as [Hn|Hn].
  - rewrite claim_interface_known by exact Hn. now split.
  - rewrite (claim_interface_new n h w Hn).
    destruct (Z.ltb_spec (fst (libusb_claim_interface (handle_base h) n (native w))) 0)
      as [Hrc|Hrc]; unfold claimed_subset, with_entry; cbn.
    + split; [exact Hnd|]. intros i Hi.
      rewrite claim_frame by (intros [= ->]; contradiction). now apply Hc.
    + split.
      * apply NoDup_app. split; [exact Hnd|]. split; [|apply NoDup_singleton].
        intros x Hx Hx'. apply list_elem_of_singleton in Hx'. now subst.
      * intros i Hi. apply elem_of_app in Hi as [Hi|Hi].
        -- rewrite claim_frame by (intros [= ->]; contradiction). now apply Hc.
        -- apply list_elem_of_singleton in Hi. subst i. now apply claim_success.
Qed.

(** [release_interface] keeps the invariant, whether it returns or raises. *)
Lemma release_interface_keeps_claimed_subset (n : Z) (h : device_handle) (w : world N) :
  claimed_subset h w ->
  claimed_subset (fst (snd (release_interface n (h, w))))
                 (snd (snd (release_interface n (h, w)))).
Proof.
  intros [Hnd Hc]. destruct (decide (n ∈ claimedInterfaces h)) as [Hn|Hn].
  - destruct (std_find_Some n _ Hn) as (i & E & Hi).
    rewrite (release_interface_known n h w i E).
    destruct (Z.ltb_spec (fst (libusb_release_interface (handle_base h) n (native w))) 0)
      as [Hrc|Hrc]; unfold claimed_subset, with_entry; cbn.
    + split; [exact Hnd|]. intros j Hj. destruct (decide (j = n)) as [->|Hne].
      * rewrite release_failure by exact Hrc. now apply Hc.
      * rewrite release_frame by (intros [= ->]; contradiction). now apply Hc.
    + split; [eapply sublist_NoDup; [exact Hnd|apply sublist_delete]|].
      intros j Hj.
      assert (Hne : j <> n).
      { intros ->. exact (delete_NoDup_not_elem _ _ _ Hnd Hi Hj). }
      rewrite release_frame by (intros [= ->]; contradiction).
      apply Hc. eapply list_elem_of_delete_inv, Hj.
  - rewrite release_interface_unknown by exact Hn. now split.
Qed.

(** [release()] and the destructor leave the empty object. *)
Lemma device_handle_release_keeps_claimed_subset (h : device_handle) (w : world N) :
  claimed_subset (fst (snd (device_handle_release (h, w))))
                 (snd (snd (device_handle_release (h, w)))).
Proof.
  rewrite device_handle_release_eq. apply claimed_subset_default.
Qed.

Lemma device_handle_dtor_keeps_claimed_subset (h : device_handle) (w : world N) :
  claimed_subset (fst (snd (device_handle_dtor (h, w))))
                 (snd (snd (device_handle_dtor (h, w)))).
Proof. rewrite device_handle_dtor_eq. apply claimed_subset_default. Qed.

End ClaimedSubset.

(** ** Device handles: moving *)

Section DeviceHandleMove.

Context {N : Type} `{LibUsb N}.

Lemma device_handle_move_ctor_eq (o : device_handle) (w : world N) :
  device_handle_move_ctor (o, w) = (returned o, (device_handle_default, w)).
Proof.
  unfold device_handle_move_ctor, exchange_claimedInterfaces, set_claimedInterfaces,
    on_base, exchange_base, unique_ptr_release, unique_ptr_reset, device_handle_default.
  eff_unfold. destruct o as [p l], w as [n c lg]. reflexivity.
Qed.

Lemma move_assign_body_eq (t o : device_handle) (w : world N) :
  move_assign_body ((t, o), w)
  = (returned tt,
     ((o, device_handle_default),
      World (disposed (handle_base t) libusb_close (native w))
            (calls w ++ dispose_calls (handle_base t) call_libusb_close)
            (logged w))).
Proof.
  unfold move_assign_body, on_target, on_other, exchange_claimedInterfaces,
    set_claimedInterfaces, on_base, exchange_base, unique_ptr_release, unique_ptr_reset,
    unique_resource_deleter, libusb_close_, device_handle_default, disposed, dispose_calls.
  eff_unfold. destruct o as [po lo], t as [pt lt], w as [n c lg]. cbn.
  destruct (pt =? nullptr); cbn; [|reflexivity].
  now rewrite app_nil_r.
Qed.

Lemma device_handle_move_assign_self (l : loc) (s : gmap loc device_handle * world N) :
  device_handle_move_assign l l s = (returned tt, s).
Proof.
  unfold device_handle_move_assign.
  rewrite bool_decide_eq_false_2; [reflexivity|]. intros Hne. now apply Hne.
Qed.

Lemma device_handle_dtor_default (w : world N) :
  device_handle_dtor (device_handle_default, w) = (returned tt, (device_handle_default, w)).
Proof. rewrite device_handle_dtor_eq. cbn. rewrite !app_nil_r. now destruct w. Qed.

(** C10. Move assignment between two distinct handles closes the
    channel the target owned (when it owned one) through the base
    disposer, with no native release call for the interfaces the target
    had recorded; the target takes over the channel and the claimed set of
    the source, and the source is left empty, so that destroying the
    source issues no native call. *)
Theorem move_assign_takes_over (this_ other : loc) (objs : gmap loc device_handle)
    (t o : device_handle) (w : world N) :
  this_ <> other ->
  objs !! this_ = Some t ->
  objs !! other = Some o ->
  let w' := World (if handle_base t =? nullptr then native w
                   else libusb_close (handle_base t) (native w))
                  (calls w ++ (if handle_base t =? nullptr then []
                               else [call_libusb_close (handle_base t)]))
                  (logged w) in
  device_handle_move_assign this_ other (objs, w)
  = (returned tt, (<[other := device_handle_default]> (<[this_ := o]> objs), w'))
  /\ device_handle_dtor (device_handle_default, w')
     = (returned tt, (device_handle_default, w')).
Proof.
  intros Hne Ht Ho w'. split; [|apply device_handle_dtor_default].
  unfold device_handle_move_assign. cbn [fst snd].
  rewrite bool_decide_eq_true_2 by exact Hne.
  rewrite Ht, Ho, move_assign_body_eq. reflexivity.
Qed.

End DeviceHandleMove.

Lemma move_assign_takes_over_witness :
  let objs : gmap loc device_handle :=
    <[2%positive := DeviceHandle 1001 [2; 3]]> {[1%positive := DeviceHandle 1000 [1]]} in
  let w := Sim.two_open in
  let w' := World (libusb_close 1000 (native w)) (calls w ++ [call_libusb_close 1000])
                  (logged w) in
  device_handle_move_assign 1%positive 2%positive (objs, w)
  = (returned tt,
     (<[2%positive := device_handle_default]>
        (<[1%positive := DeviceHandle 1001 [2; 3]]> objs), w'))
  /\ device_handle_dtor (device_handle_default, w')
     = (returned tt, (device_handle_default, w')).
Proof.
  apply (move_assign_takes_over 1%positive 2%positive
           (<[2%positive := DeviceHandle 1001 [2; 3]]> {[1%positive := DeviceHandle 1000 [1]]})
           (DeviceHandle 1000 [1]) (DeviceHandle 1001 [2; 3]) Sim.two_open).
  - discriminate.
  - reflexivity.
  - reflexivity.
Defined.

Section ClaimedSubsetMove.

Context {N : Type} `{ClaimLaws N}.

(** Move construction hands the invariant over to the new object. *)
Lemma device_handle_move_ctor_keeps_claimed_subset (o : device_handle) (w : world N) :
  claimed_subset o w ->
  match device_handle_move_ctor (o, w) with
  | (returned new, (o', w')) => claimed_subset new w' /\ claimed_subset o' w'
  | (thrown _, _) => False
  end.
Proof.
  intros Ho. rewrite device_handle_move_ctor_eq. split; [exact Ho|].
  apply claimed_subset_default.
Qed.

(** Move assignment keeps the invariant of both objects, provided the two
    do not own the same channel. *)
Lemma move_assign_keeps_claimed_subset (t o : device_handle) (w : world N) :
  handle_base t <> handle_base o ->
  claimed_subset o w ->
  let s' := snd (move_assign_body ((t, o), w)) in
  claimed_subset (fst (fst s')) (snd s') /\ claimed_subset (snd (fst s')) (snd s').
Proof.
  intros Hne [Hnd Hc]. rewrite move_assign_body_eq. cbn.
  split; [|apply claimed_subset_default].
  split; [exact Hnd|]. intros i Hi. cbn. unfold disposed.
  destruct (handle_base t =? nullptr); [now apply Hc|].
  rewrite close_frame by congruence. now apply Hc.
Qed.

End ClaimedSubsetMove.

(** ** Usb devices: reference counting *)

Lemma sim_refcount_laws : RefCountLaws Sim.state.
Proof.
  constructor.
  - reflexivity.
  - intros d d' n _. cbn. unfold Sim.add_ref, Sim.upd.
    destruct (Z.eqb_spec d' d), (decide (d' = d)); subst; try contradiction; lia.
  - intros d d' n _. cbn. unfold Sim.add_ref, Sim.upd.
    destruct (Z.eqb_spec d' d), (decide (d' = d)); subst; try contradiction; lia.
Qed.

Section UsbDevice.

Context {N : Type} `{LibUsb N}.

Lemma usb_device_ctor_eq (p : pointer) (w : world N) :
  usb_device_ctor p w
  = (returned (fst (libusb_ref_device p (native w))),
     World (snd (libusb_ref_device p (native w)))
           (calls w ++ [call_libusb_ref_device p]) (logged w)).
Proof.
  unfold usb_device_ctor, libusb_ref_device_, invoke.
  now destruct (libusb_ref_device p (native w)).
Qed.

Lemma usb_device_dtor_eq (d : usb_device) (w : world N) :
  usb_device_dtor (d, w)
  = (returned tt,
     (nullptr,
      World (disposed d libusb_unref_device (native w))
            (calls w ++ dispose_calls d call_libusb_unref_device)
            (logged w))).
Proof.
  unfold usb_device_dtor, unique_ptr_destroy, unique_resource_deleter,
    libusb_unref_device_, disposed, dispose_calls.
  eff_unfold. destruct (d =? nullptr); cbn; [|reflexivity].
  rewrite app_nil_r. now destruct w.
Qed.

Lemma usb_device_reset_eq (p : pointer) (d : usb_device) (w : world N) :
  usb_device_reset p (d, w)
  = (returned tt,
     (fst (libusb_ref_device p (native w)),
      World (disposed d libusb_unref_device (snd (libusb_ref_device p (native w))))
            (calls w ++ [call_libusb_ref_device p]
                     ++ dispose_calls d call_libusb_unref_device)
            (logged w))).
Proof.
  unfold usb_device_reset, unique_ptr_reset, unique_resource_deleter,
    libusb_unref_device_, libusb_ref_device_, disposed, dispose_calls.
  eff_unfold. destruct (libusb_ref_device p (native w)) as [q n1]. cbn.
  destruct (d =? nullptr); cbn; [|now rewrite <- app_assoc].
  reflexivity.
Qed.

Lemma nonnull_eqb (p : pointer) : p <> nullptr -> (p =? nullptr) = false.
Proof. intros Hp. now apply Z.eqb_neq. Qed.

Context `{!RefCountLaws N}.

(** C8. Constructing a Usb Device from the raw identity [D] issues one
    native reference call, after which the count of [D] is one greater
    than before; destroying the Usb Device issues one native unreference
    call, after which the count of [D] is what it was before the
    construction. *)
Theorem usb_device_ctor_dtor_refcount (D : pointer) (w : world N) :
  D <> nullptr ->
  exists (w1 w2 : world N),
    usb_device_ctor D w = (returned D, w1)
    /\ usb_device_dtor (D, w1) = (returned tt, (nullptr, w2))
    /\ calls w1 = calls w ++ [call_libusb_ref_device D]
    /\ calls w2 = calls w1 ++ [call_libusb_unref_device D]
    /\ refcnt (native w1) D = refcnt (native w) D + 1
    /\ refcnt (native w2) D = refcnt (native w) D.
Proof.
  intros HD. eexists _, _.
  rewrite usb_device_ctor_eq, usb_device_dtor_eq, ref_device_returns.
  split; [reflexivity|]. split; [reflexivity|].
  unfold disposed, dispose_calls. rewrite (nonnull_eqb D HD). cbn [native calls].
  split; [reflexivity|]. split; [reflexivity|].
  rewrite unref_device_counts, !ref_device_counts by exact HD.
  rewrite decide_True by reflexivity. lia.
Qed.

(** The order of [reset(newRaw)]: the native reference call on [newRaw]
    comes first and only then the native unreference call on the old
    handle, which is skipped when the old handle is empty; the object ends
    up holding [newRaw].  With [newRaw] equal to the non-empty handle
    held, the count goes from its value to one more and back: it never
    drops below the value it had. *)
Theorem usb_device_reset_refs_before_unref (newRaw : pointer) (d : usb_device) (w : world N) :
  let n1 := snd (libusb_ref_device newRaw (native w)) in
  let r := usb_device_reset newRaw (d, w) in
  fst r = returned tt
  /\ fst (snd r) = newRaw
  /\ calls (snd (snd r))
     = calls w ++ [call_libusb_ref_device newRaw]
       ++ (if d =? nullptr then [] else [call_libusb_unref_device d])
  /\ native (snd (snd r)) = (if d =? nullptr then n1 else libusb_unref_device d n1)
  /\ (newRaw = d -> d <> nullptr ->
      refcnt n1 d = refcnt (native w) d + 1
      /\ refcnt (native (snd (snd r))) d = refcnt (native w) d).
Proof.
  cbn zeta. rewrite usb_device_reset_eq. cbn [fst snd calls native].
  split; [reflexivity|]. split; [apply ref_device_returns|].
  split; [reflexivity|]. split; [reflexivity|].
  intros -> Hd. unfold disposed. rewrite (nonnull_eqb d Hd).
  rewrite unref_device_counts, !ref_device_counts by exact Hd.
  rewrite decide_True by reflexivity. lia.
Qed.

End UsbDevice.

Lemma usb_device_ctor_dtor_refcount_witness :
  exists (w1 w2 : world Sim.state),
    usb_device_ctor 5 (Sim.start Sim.ok [5]) = (returned 5, w1)
    /\ usb_device_dtor (5, w1) = (returned tt, (nullptr, w2))
    /\ calls w1 = calls (Sim.start Sim.ok [5]) ++ [call_libusb_ref_device 5]
    /\ calls w2 = calls w1 ++ [call_libusb_unref_device 5]
    /\ refcnt (native w1) 5 = refcnt (native (Sim.start Sim.ok [5])) 5 + 1
    /\ refcnt (native w2) 5 = refcnt (native (Sim.start Sim.ok [5])) 5.
Proof.
  apply (usb_device_ctor_dtor_refcount (RefCountLaws0 := sim_refcount_laws) 5
           (Sim.start Sim.ok [5])).
  unfold nullptr. lia.
Defined.

Lemma usb_device_reset_refs_before_unref_witness :
  let w := Sim.start Sim.ok [5] in
  let n1 := snd (libusb_ref_device 5 (native w)) in
  let r := usb_device_reset 5 (5, w) in
  refcnt n1 5 = refcnt (native w) 5 + 1
  /\ refcnt (native (snd (snd r))) 5 = refcnt (native w) 5.
Proof.
  apply (usb_device_reset_refs_before_unref (RefCountLaws0 := sim_refcount_laws) 5 5
           (Sim.start Sim.ok [5])).
  - reflexivity.
  - unfold nullptr. lia.
Defined.

(** C7. [reset()] with the empty handle as [newRaw] - the default
    argument - on a device that holds handle 5: the native reference call
    is issued all the same, on the null pointer, and then the device held
    is unreferenced.  The increment is not restricted to a non-empty
    [newRaw], although the disposing side skips the null pointer. *)
Lemma usb_device_reset_refs_empty_handle :
  calls (snd (snd (usb_device_reset nullptr (5, Sim.start Sim.ok [5]))))
  = [call_libusb_ref_device nullptr; call_libusb_unref_device 5]
  /\ ~ (forall (newRaw : pointer) (d : usb_device) (w : world Sim.state),
          call_libusb_ref_device newRaw ∈ calls_of (usb_device_reset newRaw) (d, w) ->
          newRaw <> nullptr).
Proof.
  split; [reflexivity|].
  intros Hclaim.
  apply (Hclaim nullptr 5 (Sim.start Sim.ok [5])); [|reflexivity].
  vm_compute. apply list_elem_of_here.
Qed.

(** ** Device lists *)

Section DeviceList.

Context {N : Type} `{LibUsb N}.

Lemma at_out_of_range (l : device_list) (w : world N) (index : Z) :
  size l <= index ->
  at_ index (l, w) = (thrown (out_of_range "device_list::at"), (l, w)).
Proof.
  intros Hi. unfold at_. eff_unfold.
  destruct (Z.leb_spec (size l) index); [reflexivity|lia].
Qed.

Lemma at_in_range (l : device_list) (w : world N) (index : Z) :
  index < size l ->
  at_ index (l, w) = (returned (device_array (native w) (begin l) index), (l, w)).
Proof.
  intros Hi. unfold at_, deref_at. eff_unfold.
  destruct (Z.leb_spec (size l) index); [lia|reflexivity].
Qed.

Lemma device_list_ctor_success (context : pointer) (w : world N) :
  let r := libusb_get_device_list context (native w) in
  0 <= fst (fst r) ->
  device_list_ctor context w
  = (returned (DeviceList (static_cast_size_type (fst (fst r))) (snd (fst r))),
     World (snd r) (calls w ++ [call_libusb_get_device_list context]) (logged w)).
Proof.
  cbn zeta. intros Hrc.
  unfold device_list_ctor, device_list_ctor_body, CALL_LOG_ERROR_THROW, call_log_throw,
    get_device_list_into, device_list_default.
  eff_unfold.
  destruct (libusb_get_device_list context (native w)) as [[rc arr] n1]. cbn in *.
  destruct (Z.ltb_spec rc 0); [lia|]. reflexivity.
Qed.

(** C9. [at(i)] raises [out_of_range] when [i >= size()] and returns the
    element otherwise.  A list enumerated from a context for which the
    native layer reports zero devices has size 0, is [empty()], and
    [at(0)] on it raises [out_of_range]. *)
Theorem device_list_at_checks_bounds :
  (forall (l : device_list) (w : world N) (index : Z),
      0 <= index ->
      (size l <= index ->
       at_ index (l, w) = (thrown (out_of_range "device_list::at"), (l, w)))
      /\ (index < size l ->
          at_ index (l, w)
          = (returned (device_array (native w) (begin l) index), (l, w))))
  /\ (forall (context : pointer) (w : world N),
        fst (fst (libusb_get_device_list context (native w))) = 0 ->
        exists (l : device_list) (w' : world N),
          device_list_ctor context w = (returned l, w')
          /\ size l = 0
          /\ empty l = true
          /\ at_ 0 (l, w') = (thrown (out_of_range "device_list::at"), (l, w'))).
Proof.
  split.
  - intros l w index _. split; [apply at_out_of_range|apply at_in_range].
  - intros context w Hrc.
    eexists _, _. split.
    + apply device_list_ctor_success. rewrite Hrc. lia.
    + rewrite Hrc. split; [reflexivity|]. split; [reflexivity|].
      apply at_out_of_range. unfold size, static_cast_size_type. cbn [countDevices].
      rewrite Z.mod_0_l by lia. lia.
Qed.

End DeviceList.

Lemma device_list_at_checks_bounds_witness :
  (at_ 2 (DeviceList 2 1000, Sim.start Sim.ok [5; 6])
   = (thrown (out_of_range "device_list::at"), (DeviceList 2 1000, Sim.start Sim.ok [5; 6])))
  /\ (exists (l : device_list) (w' : world Sim.state),
         device_list_ctor 1 (Sim.start Sim.ok []) = (returned l, w')
         /\ size l = 0
         /\ empty l = true
         /\ at_ 0 (l, w') = (thrown (out_of_range "device_list::at"), (l, w'))).
Proof.
  split.
  - apply (proj1 device_list_at_checks_bounds (DeviceList 2 1000)
             (Sim.start Sim.ok [5; 6]) 2).
    + lia.
    + cbn. lia.
  - apply (proj2 device_list_at_checks_bounds 1 (Sim.start Sim.ok [])).
    reflexivity.
Defined.

(** On the reference native layer: a list of two devices yields them at
    the indices 0 and 1 and raises at index 2. *)
Example device_list_of_two :
  let r := device_list_ctor 1 (Sim.start Sim.ok [5; 6]) in
  match fst r with
  | returned l =>
      size l = 2 /\ empty l = false
      /\ fst (at_ 0 (l, snd r)) = returned 5
      /\ fst (at_ 1 (l, snd r)) = returned 6
      /\ fst (at_ 2 (l, snd r)) = thrown (out_of_range "device_list::at")
  | thrown _ => False
  end.
Proof. vm_compute. repeat split; reflexivity. Qed.

(** ** The reference native layer meets the claim contract *)

Lemma sim_claim_laws : ClaimLaws Sim.state.
Proof.
  constructor; cbn.
  - intros h i n. unfold Sim.claim_interface_.
    destruct (Z.ltb_spec (Sim.sim_rc n (call_libusb_claim_interface h i)) 0); cbn.
    + lia.
    + intros _. unfold Sim.upd. now rewrite !Z.eqb_refl.
  - intros h h' i i' n Hne. unfold Sim.claim_interface_.
    destruct (Sim.sim_rc n (call_libusb_claim_interface h i) <? 0); cbn; [reflexivity|].
    unfold Sim.upd. destruct (Z.eqb_spec h' h); [|reflexivity].
    destruct (Z.eqb_spec i' i); [|now subst]. subst. contradiction.
  - intros h i n. unfold Sim.release_interface_.
    destruct (Sim.sim_rc n (call_libusb_release_interface h i) <? 0); cbn; [reflexivity|].
    destruct (Sim.sim_claimed n h i) eqn:E; cbn; [lia|]. intros _. now rewrite E.
  - intros h h' i i' n Hne. unfold Sim.release_interface_.
    destruct (Sim.sim_rc n (call_libusb_release_interface h i) <? 0); cbn; [reflexivity|].
    destruct (Sim.sim_claimed n h i) eqn:E; cbn; [|reflexivity].
    unfold Sim.upd. destruct (Z.eqb_spec h' h); [|reflexivity].
    destruct (Z.eqb_spec i' i); [|now subst]. subst. contradiction.
  - intros h h' i n Hne. unfold Sim.upd.
    destruct (Z.eqb_spec h' h); [contradiction|reflexivity].
Qed.

(** * Further properties of the wrappers *)

(** ** Releasing interfaces *)

Lemma std_find_app_new (x : Z) (l : list Z) :
  x ∉ l -> std_find x (l ++ [x]) = Some (length l).
Proof.
  intros Hx. unfold std_find.
  assert (E : list_find (fun y => y = x) (l ++ [x]) = Some (length l, x)).
  { apply list_find_Some. split; [|split; [reflexivity|]].
    - rewrite lookup_app_r by lia. now rewrite Nat.sub_diag.
    - intros j y Hj Hlt ->. apply Hx.
      rewrite lookup_app_l in Hj by exact Hlt.
      eapply list_elem_of_lookup_2, Hj. }
  now rewrite E.
Qed.

Lemma elem_of_delete_other (l : list Z) (i : nat) (n x : Z) :
  l !! i = Some n -> x <> n -> x ∈ l -> x ∈ delete i l.
Proof.
  intros Hi Hne Hx. rewrite delete_take_drop.
  rewrite <- (take_drop_middle l i n Hi) in Hx.
  apply elem_of_app in Hx as [Hx|Hx]; apply elem_of_app; [now left|].
  apply elem_of_cons in Hx as [->|Hx]; [contradiction|now right].
Qed.

Section ReleaseInterface.

Context {N : Type} `{LibUsb N}.

(** [release_interface(n)] does nothing when [n] is not recorded.
    Otherwise it issues the native release call once; a negative result
    is logged and raised as a [usb_error] with that code and the claimed
    set stays as it was; on success [n] is removed, the other recorded
    interfaces keep their order, and a second [release_interface(n)] does
    nothing. *)
Theorem release_interface_once (n : Z) (h : device_handle) (w : world N) :
  let p := handle_base h in
  let rc := fst (libusb_release_interface p n (native w)) in
  let w1 := World (snd (libusb_release_interface p n (native w)))
                  (calls w ++ [call_libusb_release_interface p n]) (logged w) in
  (n ∉ claimedInterfaces h -> release_interface n (h, w) = (returned tt, (h, w)))
  /\ (n ∈ claimedInterfaces h -> rc < 0 ->
      exists e : exn,
        release_interface n (h, w)
        = (thrown e,
           with_entry (h, w1)
             (LogEntry MVLOG_ERROR "release_interface" 323
                       (failed_message "release_interface" rc)))
        /\ exn_code e = Some (static_cast_int rc))
  /\ (n ∈ claimedInterfaces h -> 0 <= rc -> NoDup (claimedInterfaces h) ->
      exists l' : list Z,
        release_interface n (h, w) = (returned tt, (DeviceHandle p l', w1))
        /\ (n ∉ l')
        /\ (forall x : Z, x <> n -> (x ∈ l' <-> x ∈ claimedInterfaces h))
        /\ l' `sublist_of` claimedInterfaces h
        /\ release_interface n (DeviceHandle p l', w1)
           = (returned tt, (DeviceHandle p l', w1))).
Proof.
  cbn zeta. split; [apply release_interface_unknown|]. split.
  - intros Hn Hrc. destruct (std_find_Some n _ Hn) as (i & E & Hi).
    rewrite (release_interface_known n h w i E).
    destruct (Z.ltb_spec (fst (libusb_release_interface (handle_base h) n (native w))) 0);
      [|lia].
    eexists. split; reflexivity.
  - intros Hn Hrc Hnd. destruct (std_find_Some n _ Hn) as (i & E & Hi).
    exists (delete i (claimedInterfaces h)).
    assert (Hnot : n ∉ delete i (claimedInterfaces h))
      by exact (delete_NoDup_not_elem _ _ _ Hnd Hi).
    split.
    { rewrite (release_interface_known n h w i E).
      destruct (Z.ltb_spec (fst (libusb_release_interface (handle_base h) n (native w))) 0);
        [lia|reflexivity]. }
    split; [exact Hnot|]. split.
    { intros x Hne. split; [apply list_elem_of_delete_inv|].
      now apply elem_of_delete_other with n. }
    split; [apply sublist_delete|].
    now apply release_interface_unknown.
Qed.

(** Claiming an interface that is not recorded and releasing it again,
    both native calls succeeding, leaves the claimed set as it was; the
    native layer saw the claim and then the release. *)
Theorem claim_then_release_restores (n : Z) (h : device_handle) (w : world N) :
  let p := handle_base h in
  let n1 := snd (libusb_claim_interface p n (native w)) in
  n ∉ claimedInterfaces h ->
  0 <= fst (libusb_claim_interface p n (native w)) ->
  0 <= fst (libusb_release_interface p n n1) ->
  (claim_interface n ;; release_interface n) (h, w)
  = (returned tt,
     (DeviceHandle p (claimedInterfaces h),
      World (snd (libusb_release_interface p n n1))
            (calls w ++ [call_libusb_claim_interface p n; call_libusb_release_interface p n])
            (logged w))).
Proof.
  cbn zeta. intros Hn Hc Hr.
  assert (E1 : claim_interface n (h, w)
               = (returned tt,
                  (DeviceHandle (handle_base h) (claimedInterfaces h ++ [n]),
                   World (snd (libusb_claim_interface (handle_base h) n (native w)))
                         (calls w ++ [call_libusb_claim_interface (handle_base h) n])
                         (logged w)))).
  { rewrite (claim_interface_new n h w Hn).
    destruct (Z.ltb_spec (fst (libusb_claim_interface (handle_base h) n (native w))) 0);
      [lia|reflexivity]. }
  rewrite (bind_returned _ _ _ _ _ E1).
  rewrite (release_interface_known n _ _ (length (claimedInterfaces h)))
    by (apply std_find_app_new; exact Hn).
  cbn [handle_base claimedInterfaces native calls logged].
  destruct (Z.ltb_spec
              (fst (libusb_release_interface (handle_base h) n
                      (snd (libusb_claim_interface (handle_base h) n (native w))))) 0);
    [lia|].
  rewrite (delete_middle (claimedInterfaces h) [] n), app_nil_r, <- app_assoc.
  reflexivity.
Qed.

(** The destructor, for every claimed set: it never raises, issues the
    native release for each recorded interface in the recorded order and
    then the close of a non-null handle, hands one message of severity
    error to the sink per failed release, and leaves the object empty. *)
Theorem device_handle_dtor_releases_all (h : device_handle) (w : world N) :
  let p := handle_base h in
  let l := claimedInterfaces h in
  let rcs := fst (release_all p l (native w)) in
  let r := device_handle_dtor (h, w) in
  fst r = returned tt
  /\ fst (snd r) = device_handle_default
  /\ calls (snd (snd r))
     = calls w ++ map (call_libusb_release_interface p) l
       ++ (if p =? nullptr then [] else [call_libusb_close p])
  /\ length rcs = length l
  /\ (exists new : list log_entry,
         logged (snd (snd r)) = logged w ++ new
         /\ length new = length (List.filter (fun rc => rc <? 0) rcs)
         /\ Forall (fun e => log_severity e = MVLOG_ERROR) new).
Proof.
  cbn zeta. rewrite device_handle_dtor_eq. cbn [fst snd calls logged].
  split; [reflexivity|]. split; [reflexivity|]. split; [reflexivity|]. split.
  - generalize (native w). induction (claimedInterfaces h) as [|i l IH]; intros n0.
    + reflexivity.
    + cbn. destruct (libusb_release_interface (handle_base h) i n0) as [rc n1].
      specialize (IH n1). destruct (release_all (handle_base h) l n1). cbn in *.
      now rewrite IH.
  - eexists. split; [reflexivity|]. unfold reset_entries. split.
    + apply length_map.
    + apply Forall_forall. intros e He. apply list_elem_of_In, in_map_iff in He.
      destruct He as (rc & <- & _). reflexivity.
Qed.

(** Move construction takes the channel and the claimed set over without
    any native call and leaves the source empty: destroying the source
    afterwards issues no native call. *)
Theorem device_handle_move_ctor_transfers (o : device_handle) (w : world N) :
  device_handle_move_ctor (o, w) = (returned o, (device_handle_default, w))
  /\ device_handle_dtor (snd (device_handle_move_ctor (o, w)))
     = (returned tt, (device_handle_default, w)).
Proof.
  rewrite device_handle_move_ctor_eq. split; [reflexivity|].
  apply device_handle_dtor_default.
Qed.

End ReleaseInterface.

Lemma release_interface_once_witness :
  let h := DeviceHandle 1000 [1; 2] in
  let w := World (Sim.set_claimed 1000 1 true (Sim.set_claimed 1000 2 true
                    (native Sim.two_open))) [] [] in
  let w1 := World (snd (libusb_release_interface 1000 1 (native w)))
                  (calls w ++ [call_libusb_release_interface 1000 1]) (logged w) in
  exists l' : list Z,
    release_interface 1 (h, w) = (returned tt, (DeviceHandle 1000 l', w1))
    /\ (1 ∉ l')
    /\ (forall x : Z, x <> 1 -> (x ∈ l' <-> x ∈ [1; 2]))
    /\ l' `sublist_of` [1; 2]
    /\ release_interface 1 (DeviceHandle 1000 l', w1)
       = (returned tt, (DeviceHandle 1000 l', w1)).
Proof.
  apply (proj2 (proj2 (release_interface_once 1 (DeviceHandle 1000 [1; 2])
           (World (Sim.set_claimed 1000 1 true (Sim.set_claimed 1000 2 true
                     (native Sim.two_open))) [] [])))).
  - cbn. apply list_elem_of_here.
  - vm_compute. discriminate.
  - cbn. apply NoDup_cons. split; [|apply NoDup_singleton].
    intros Hin. apply list_elem_of_singleton in Hin. discriminate.
Defined.

Lemma claim_then_release_restores_witness :
  (claim_interface 1 ;; release_interface 1) (DeviceHandle 1000 [2], Sim.two_open)
  = (returned tt,
     (DeviceHandle 1000 [2],
      World (snd (libusb_release_interface 1000 1
                    (snd (libusb_claim_interface 1000 1 (native Sim.two_open)))))
            (calls Sim.two_open
               ++ [call_libusb_claim_interface 1000 1; call_libusb_release_interface 1000 1])
            (logged Sim.two_open))).
Proof.
  apply (claim_then_release_restores 1 (DeviceHandle 1000 [2]) Sim.two_open).
  - cbn. intros Hin. apply list_elem_of_singleton in Hin. discriminate.
  - vm_compute. discriminate.
  - vm_compute. discriminate.
Defined.

(** ** The claimed-set invariant along a sequence of calls *)

Section ClaimedSubsetSequence.

Context {N : Type} `{ClaimLaws N}.

(** Whatever sequence of [claim_interface] and [release_interface] calls
    is made on a handle, and whichever of them raise, the handle keeps
    its channel, the claimed set stays duplicate free and every recorded
    interface stays claimed at the native layer through that channel. *)
Theorem interface_ops_keep_claimed_subset (ops : list interface_op)
    (h : device_handle) (w : world N) :
  claimed_subset h w ->
  let r := run_interface_ops ops (h, w) in
  fst r = returned tt
  /\ handle_base (fst (snd r)) = handle_base h
  /\ claimed_subset (fst (snd r)) (snd (snd r)).
Proof.
  revert h w. induction ops as [|o ops IH]; intros h w Hinv.
  - cbn. split; [reflexivity|]. split; [reflexivity|exact Hinv].
  - cbn zeta. unfold run_interface_ops. cbn [for_each].
    set (s1 := snd (run_interface_op o (h, w))).
    assert (E : catching (run_interface_op o) (h, w) = (returned tt, s1)) by reflexivity.
    rewrite (bind_returned _ _ _ _ _ E).
    assert (H1 : handle_base (fst s1) = handle_base h /\ claimed_subset (fst s1) (snd s1)).
    { subst s1. destruct o as [n|n]; cbn [run_interface_op].
      - split; [|now apply claim_interface_keeps_claimed_subset].
        destruct (decide (n ∈ claimedInterfaces h)) as [Hn|Hn].
        + now rewrite claim_interface_known.
        + rewrite (claim_interface_new n h w Hn).
          now destruct (fst (libusb_claim_interface (handle_base h) n (native w)) <? 0).
      - split; [|now apply release_interface_keeps_claimed_subset].
        destruct (decide (n ∈ claimedInterfaces h)) as [Hn|Hn].
        + destruct (std_find_Some n _ Hn) as (i & Ei & _).
          rewrite (release_interface_known n h w i Ei).
          now destruct (fst (libusb_release_interface (handle_base h) n (native w)) <? 0).
        + now rewrite release_interface_unknown. }
    destruct H1 as [Hb H1]. destruct s1 as [h1 w1]. cbn [fst snd] in *.
    destruct (IH h1 w1 H1) as (R1 & R2 & R3).
    split; [exact R1|]. split; [|exact R3].
    etransitivity; [exact R2|exact Hb].
Qed.

End ClaimedSubsetSequence.

Lemma interface_ops_keep_claimed_subset_witness :
  let r := run_interface_ops [op_claim 1; op_claim 2; op_release 1; op_release 7; op_claim 1]
             (DeviceHandle 1000 [], Sim.two_open) in
  fst r = returned tt
  /\ handle_base (fst (snd r)) = handle_base (DeviceHandle 1000 [])
  /\ claimed_subset (fst (snd r)) (snd (snd r)).
Proof.
  apply (@interface_ops_keep_claimed_subset _ _ sim_claim_laws
           [op_claim 1; op_claim 2; op_release 1; op_release 7; op_claim 1]
           (DeviceHandle 1000 []) Sim.two_open).
  split.
  - cbn. apply NoDup_nil_2.
  - cbn. intros i Hi. inversion Hi.
Defined.

Lemma move_assign_keeps_claimed_subset_witness :
  let w := World (Sim.set_claimed 1001 2 true
                    (Sim.set_claimed 1001 3 true
                       (Sim.set_claimed 1000 1 true (native Sim.two_open)))) [] [] in
  let s' := snd (move_assign_body
                   ((DeviceHandle 1000 [1], DeviceHandle 1001 [2; 3]), w)) in
  (fst (fst s') = DeviceHandle 1001 [2; 3]
   /\ snd (fst s') = device_handle_default
   /\ calls (snd s') = [call_libusb_close 1000]
   /\ is_claimed (native (snd s')) 1001 2 = true
   /\ is_claimed (native (snd s')) 1001 3 = true)
  /\ claimed_subset (fst (fst s')) (snd s')
  /\ claimed_subset (snd (fst s')) (snd s').
Proof.
  split; [vm_compute; repeat split; reflexivity|].
  apply (@move_assign_keeps_claimed_subset _ _ sim_claim_laws
           (DeviceHandle 1000 [1]) (DeviceHandle 1001 [2; 3])
           (World (Sim.set_claimed 1001 2 true
                     (Sim.set_claimed 1001 3 true
                        (Sim.set_claimed 1000 1 true (native Sim.two_open)))) [] [])).
  - cbn. discriminate.
  - split.
    + cbn. apply NoDup_cons. split; [|apply NoDup_singleton].
      intros Hin. apply list_elem_of_singleton in Hin. discriminate.
    + cbn [claimedInterfaces handle_base native]. intros i Hi.
      apply elem_of_cons in Hi as [->|Hi]; [reflexivity|].
      apply list_elem_of_singleton in Hi. subst i. reflexivity.
Defined.

(** ** Device lists: construction, destruction, moving, access *)

Section DeviceListLifecycle.

Context {N : Type} `{LibUsb N}.

Lemma device_list_ctor_failure (context : pointer) (w : world N) :
  let r := libusb_get_device_list context (native w) in
  fst (fst r) < 0 ->
  device_list_ctor context w
  = (thrown (usb_error_of_code (static_cast_int (fst (fst r)))),
     World (snd r) (calls w ++ [call_libusb_get_device_list context])
           (logged w ++ [LogEntry MVLOG_ERROR "device_list" 151
                                  (failed_message "device_list" (fst (fst r)))])).
Proof.
  cbn zeta. intros Hrc.
  unfold device_list_ctor, device_list_ctor_body, CALL_LOG_ERROR_THROW, call_log_throw,
    get_device_list_into, device_list_default, logprintf, throw_conditional.
  eff_unfold.
  destruct (libusb_get_device_list context (native w)) as [[rc arr] n1]. cbn in *.
  destruct (Z.ltb_spec rc 0); [|lia]. reflexivity.
Qed.

Lemma device_list_dtor_eq (l : device_list) (w : world N) :
  device_list_dtor (l, w)
  = (returned tt,
     (l, World (disposed (deviceList l) (fun p => libusb_free_device_list p 1) (native w))
               (calls w ++ dispose_calls (deviceList l)
                             (fun p => call_libusb_free_device_list p 1))
               (logged w))).
Proof.
  unfold device_list_dtor, disposed, dispose_calls. eff_unfold.
  destruct (deviceList l =? nullptr); cbn; [|reflexivity].
  rewrite app_nil_r. now destruct w.
Qed.

Lemma device_list_move_ctor_eq (o : device_list) (w : world N) :
  device_list_move_ctor (o, w) = (returned o, (device_list_default, w)).
Proof.
  unfold device_list_move_ctor, exchange_countDevices, exchange_deviceList,
    device_list_default.
  eff_unfold. now destruct o.
Qed.

Lemma device_list_move_assign_body_eq (t o : device_list) (w : world N) :
  device_list_move_assign_body ((t, o), w) = (returned tt, ((o, device_list_default), w)).
Proof.
  unfold device_list_move_assign_body, on_target, on_other, exchange_countDevices,
    exchange_deviceList, device_list_default.
  eff_unfold. now destruct o.
Qed.

(** The constructor from a context issues the enumeration call once.  A
    negative result is logged and raised as a [usb_error] with that code,
    and no list exists afterwards; otherwise the list has the reported
    number of devices, is [empty()] exactly when that number is zero, and
    holds the array the native call stored. *)
Theorem device_list_ctor_outcome (context : pointer) (w : world N) :
  let r := libusb_get_device_list context (native w) in
  let rc := fst (fst r) in
  let w1 := World (snd r) (calls w ++ [call_libusb_get_device_list context]) (logged w) in
  (rc < 0 ->
   exists (e : exn) (w' : world N),
     device_list_ctor context w = (thrown e, w')
     /\ exn_code e = Some (static_cast_int rc)
     /\ calls w' = calls w1
     /\ logged w' = logged w ++ [LogEntry MVLOG_ERROR "device_list" 151
                                          (failed_message "device_list" rc)])
  /\ (0 <= rc < 2 ^ 64 ->
      exists l : device_list,
        device_list_ctor context w = (returned l, w1)
        /\ size l = rc
        /\ deviceList l = snd (fst r)
        /\ (empty l = true <-> rc = 0)).
Proof.
  cbn zeta. split.
  - intros Hrc. rewrite device_list_ctor_failure by exact Hrc.
    eexists _, _. split; [reflexivity|]. now repeat split.
  - intros Hrc. rewrite device_list_ctor_success by lia.
    eexists. split; [reflexivity|]. unfold size, empty. cbn [countDevices deviceList].
    rewrite static_cast_size_type_id by exact Hrc.
    split; [reflexivity|]. split; [reflexivity|]. apply Z.eqb_eq.
Qed.

(** A constructed list is freed once: constructing and then destroying
    issues the enumeration call and then one
    [libusb_free_device_list(array, 1)], skipped only when the native call
    stored a null array (a successful native enumeration never does);
    destroying a default-constructed list issues no native call. *)
Theorem device_list_frees_once (context : pointer) (w : world N) :
  let r := libusb_get_device_list context (native w) in
  let arr := snd (fst r) in
  0 <= fst (fst r) ->
  (exists (l : device_list) (w1 : world N),
      device_list_ctor context w = (returned l, w1)
      /\ fst (device_list_dtor (l, w1)) = returned tt
      /\ calls (snd (snd (device_list_dtor (l, w1))))
         = calls w ++ [call_libusb_get_device_list context]
           ++ (if arr =? nullptr then [] else [call_libusb_free_device_list arr 1]))
  /\ device_list_dtor (device_list_default, w) = (returned tt, (device_list_default, w)).
Proof.
  cbn zeta. intros Hrc. split.
  - eexists _, _. split; [now apply device_list_ctor_success|].
    rewrite device_list_dtor_eq. cbn [fst snd calls deviceList].
    split; [reflexivity|]. now rewrite <- app_assoc.
  - rewrite device_list_dtor_eq. cbn. rewrite app_nil_r. now destruct w.
Qed.

(** Move construction hands count and array over without a native call
    and leaves the source empty; destroying the source and the new list,
    in either order, frees the array once. *)
Theorem device_list_move_ctor_frees_once (o : device_list) (w : world N) :
  let frees := if deviceList o =? nullptr then []
               else [call_libusb_free_device_list (deviceList o) 1] in
  device_list_move_ctor (o, w) = (returned o, (device_list_default, w))
  /\ calls (snd (snd (device_list_dtor
                        (o, snd (snd (device_list_dtor (device_list_default, w)))))))
     = calls w ++ frees
  /\ calls (snd (snd (device_list_dtor
                        (device_list_default, snd (snd (device_list_dtor (o, w)))))))
     = calls w ++ frees.
Proof.
  cbn zeta. split; [apply device_list_move_ctor_eq|].
  rewrite !device_list_dtor_eq. cbn [fst snd calls deviceList device_list_default].
  unfold dispose_calls. cbn [Z.eqb nullptr]. rewrite !app_nil_r. split; reflexivity.
Qed.

(** Move assignment between two distinct lists gives the target the
    count and the array of the source and empties the source.  It issues
    no native call: the array the target held before is not passed to
    [libusb_free_device_list], neither by the assignment nor by the later
    destruction of the two lists.  Assigning a list to itself changes
    nothing. *)
Theorem device_list_move_assign_takes_over (this_ other : loc)
    (objs : gmap loc device_list) (t o : device_list) (w : world N) :
  this_ <> other ->
  objs !! this_ = Some t ->
  objs !! other = Some o ->
  device_list_move_assign this_ other (objs, w)
  = (returned tt, (<[other := device_list_default]> (<[this_ := o]> objs), w))
  /\ calls (snd (snd (device_list_dtor
                        (device_list_default, snd (snd (device_list_dtor (o, w)))))))
     = calls w ++ (if deviceList o =? nullptr then []
                   else [call_libusb_free_device_list (deviceList o) 1])
  /\ device_list_move_assign this_ this_ (objs, w) = (returned tt, (objs, w)).
Proof.
  intros Hne Ht Ho. split; [|split].
  - unfold device_list_move_assign. cbn [fst snd].
    rewrite bool_decide_eq_false_2 by exact Hne.
    rewrite Ht, Ho, device_list_move_assign_body_eq. reflexivity.
  - rewrite !device_list_dtor_eq. cbn [fst snd calls deviceList device_list_default].
    unfold dispose_calls. cbn [Z.eqb nullptr]. now rewrite !app_nil_r.
  - unfold device_list_move_assign. now rewrite bool_decide_eq_true_2.
Qed.

(** Inside the bounds the checked and the unchecked access agree, and
    for a list that is not empty [front()] is the element at index 0 and
    [back()] the one at index [size() - 1]; none of them touches the
    native layer or the list. *)
Theorem device_list_access_agrees (l : device_list) (w : world N) (index : Z) :
  0 <= index < size l ->
  subscript index (l, w) = at_ index (l, w)
  /\ front (l, w) = at_ 0 (l, w)
  /\ back (l, w) = at_ (size l - 1) (l, w)
  /\ snd (at_ index (l, w)) = (l, w)
  /\ fst (at_ index (l, w)) = returned (device_array (native w) (deviceList l) index).
Proof.
  intros Hi. rewrite !at_in_range by lia.
  unfold subscript, front, back, deref_at. eff_unfold. now repeat split.
Qed.

End DeviceListLifecycle.

Lemma device_list_frees_once_witness :
  (exists (l : device_list) (w1 : world Sim.state),
      device_list_ctor 1 (Sim.start Sim.ok [5; 6]) = (returned l, w1)
      /\ fst (device_list_dtor (l, w1)) = returned tt
      /\ calls (snd (snd (device_list_dtor (l, w1))))
         = [call_libusb_get_device_list 1; call_libusb_free_device_list 1000 1])
  /\ device_list_dtor (device_list_default, Sim.start Sim.ok [5; 6])
     = (returned tt, (device_list_default, Sim.start Sim.ok [5; 6])).
Proof.
  assert (Hrc : 0 <= fst (fst (libusb_get_device_list 1 (native (Sim.start Sim.ok [5; 6])))))
    by (vm_compute; discriminate).
  exact (device_list_frees_once 1 (Sim.start Sim.ok [5; 6]) Hrc).
Defined.

Lemma device_list_ctor_outcome_witness :
  (exists (e : exn) (w' : world Sim.state),
      device_list_ctor 1 (Sim.start (fun _ => -11) [5]) = (thrown e, w')
      /\ exn_code e = Some (static_cast_int (-11))
      /\ calls w' = [call_libusb_get_device_list 1]
      /\ logged w' = [LogEntry MVLOG_ERROR "device_list" 151
                        (failed_message "device_list" (-11))])
  /\ (exists l : device_list,
         device_list_ctor 1 (Sim.start Sim.ok [5; 6])
         = (returned l,
            World (snd (libusb_get_device_list 1 (native (Sim.start Sim.ok [5; 6]))))
                  [call_libusb_get_device_list 1] [])
         /\ size l = 2
         /\ deviceList l = 1000
         /\ (empty l = true <-> 2 = 0)).
Proof.
  split.
  - assert (Hrc : fst (fst (libusb_get_device_list 1
                              (native (Sim.start (fun _ => -11) [5])))) < 0)
      by (vm_compute; reflexivity).
    exact (proj1 (device_list_ctor_outcome 1 (Sim.start (fun _ => -11) [5])) Hrc).
  - assert (Hrc : 0 <= fst (fst (libusb_get_device_list 1
                                   (native (Sim.start Sim.ok [5; 6])))) < 2 ^ 64)
      by (vm_compute; split; [discriminate|reflexivity]).
    exact (proj2 (device_list_ctor_outcome 1 (Sim.start Sim.ok [5; 6])) Hrc).
Defined.

Lemma device_list_move_assign_takes_over_witness :
  let objs : gmap loc device_list :=
    <[2%positive := DeviceList 1 2000]> {[1%positive := DeviceList 2 1000]} in
  let w := Sim.start Sim.ok [5; 6] in
  device_list_move_assign 1%positive 2%positive (objs, w)
  = (returned tt,
     (<[2%positive := device_list_default]> (<[1%positive := DeviceList 1 2000]> objs), w))
  /\ calls (snd (snd (device_list_dtor
                        (device_list_default,
                         snd (snd (device_list_dtor (DeviceList 1 2000, w)))))))
     = calls w ++ [call_libusb_free_device_list 2000 1]
  /\ device_list_move_assign 1%positive 1%positive (objs, w) = (returned tt, (objs, w)).
Proof.
  apply (device_list_move_assign_takes_over 1%positive 2%positive
           (<[2%positive := DeviceList 1 2000]> {[1%positive := DeviceList 2 1000]})
           (DeviceList 2 1000) (DeviceList 1 2000) (Sim.start Sim.ok [5; 6])).
  - discriminate.
  - reflexivity.
  - reflexivity.
Defined.

Lemma device_list_access_agrees_witness :
  let l := DeviceList 2 1000 in
  let w := snd (device_list_ctor 1 (Sim.start Sim.ok [5; 6])) in
  subscript 1 (l, w) = at_ 1 (l, w)
  /\ front (l, w) = at_ 0 (l, w)
  /\ back (l, w) = at_ (size l - 1) (l, w)
  /\ snd (at_ 1 (l, w)) = (l, w)
  /\ fst (at_ 1 (l, w)) = returned (device_array (native w) (deviceList l) 1).
Proof.
  apply (device_list_access_agrees (DeviceList 2 1000)
           (snd (device_list_ctor 1 (Sim.start Sim.ok [5; 6]))) 1).
  cbn. lia.
Defined.

(** ** Usb devices: references along a sequence of resets *)

Section UsbDeviceReferences.

Context {N : Type} `{RefCountLaws N}.

Lemma usb_device_reset_counts (p : pointer) (d : usb_device) (w : world N) (base : pointer -> Z) :
  p <> nullptr -> d <> nullptr ->
  (forall x : pointer, refcnt (native w) x = base x + (if decide (x = d) then 1 else 0)) ->
  exists w' : world N,
    usb_device_reset p (d, w) = (returned tt, (p, w'))
    /\ forall x : pointer, refcnt (native w') x = base x + (if decide (x = p) then 1 else 0).
Proof.
  intros Hp Hd Hinv. eexists. rewrite usb_device_reset_eq, ref_device_returns.
  split; [reflexivity|]. intros x. cbn [native]. unfold disposed.
  rewrite (nonnull_eqb d Hd), unref_device_counts, ref_device_counts, Hinv by assumption.
  lia.
Qed.

Lemma usb_device_resets_counts (ps : list pointer) :
  forall (d : usb_device) (w : world N) (base : pointer -> Z),
    d <> nullptr ->
    Forall (fun p => p <> nullptr) ps ->
    (forall x : pointer, refcnt (native w) x = base x + (if decide (x = d) then 1 else 0)) ->
    exists w' : world N,
      usb_device_resets ps (d, w) = (returned tt, (default d (last ps), w'))
      /\ forall x : pointer,
          refcnt (native w') x
          = base x + (if decide (x = default d (last ps)) then 1 else 0).
Proof.
  induction ps as [|p ps IH]; intros d w base Hd Hps Hinv.
  - exists w. split; [reflexivity|exact Hinv].
  - apply Forall_cons in Hps as [Hp Hps].
    destruct (usb_device_reset_counts p d w base Hp Hd Hinv) as (w1 & E1 & Hinv1).
    destruct (IH p w1 base Hp Hps Hinv1) as (w2 & E2 & Hinv2).
    assert (Hl : default d (last (p :: ps)) = default p (last ps)).
    { rewrite last_cons. now destruct (last ps). }
    exists w2. rewrite Hl. split; [|exact Hinv2].
    unfold usb_device_resets in *. cbn [for_each].
    rewrite (bind_returned _ _ _ _ _ E1). exact E2.
Qed.

(** [reset(newRaw)] with a non-empty [newRaw] on a device holding a
    non-empty handle moves one reference: the count of [newRaw] goes up by
    one, the count of the handle held before goes down by one (so nothing
    changes when the two are the same), every other count is untouched,
    and the object holds [newRaw]. *)
Theorem usb_device_reset_moves_reference (newRaw : pointer) (d : usb_device) (w : world N) :
  newRaw <> nullptr -> d <> nullptr ->
  exists w' : world N,
    usb_device_reset newRaw (d, w) = (returned tt, (newRaw, w'))
    /\ forall x : pointer,
        refcnt (native w') x
        = refcnt (native w) x
          + (if decide (x = newRaw) then 1 else 0) - (if decide (x = d) then 1 else 0).
Proof.
  intros Hp Hd.
  destruct (usb_device_reset_counts newRaw d w
              (fun x => refcnt (native w) x - (if decide (x = d) then 1 else 0)) Hp Hd)
    as (w' & E & Hc).
  { intros x. lia. }
  exists w'. split; [exact E|]. intros x. rewrite Hc. lia.
Qed.

(** References balance: a Usb Device constructed from [D], reset any
    number of times to non-empty handles and then destroyed leaves every
    reference count as it was before the construction; in between, the
    handle held (the last one it was reset to) has exactly one reference
    more and no other count differs. *)
Theorem usb_device_references_balance (D : pointer) (ps : list pointer) (w : world N) :
  D <> nullptr ->
  Forall (fun p => p <> nullptr) ps ->
  exists (w1 w2 w3 : world N),
    usb_device_ctor D w = (returned D, w1)
    /\ usb_device_resets ps (D, w1) = (returned tt, (default D (last ps), w2))
    /\ usb_device_dtor (default D (last ps), w2) = (returned tt, (nullptr, w3))
    /\ (forall x : pointer,
           refcnt (native w2) x
           = refcnt (native w) x + (if decide (x = default D (last ps)) then 1 else 0))
    /\ (forall x : pointer, refcnt (native w3) x = refcnt (native w) x).
Proof.
  intros HD Hps.
  assert (Hinv1 : forall x : pointer,
             refcnt (native (snd (usb_device_ctor D w))) x
             = refcnt (native w) x + (if decide (x = D) then 1 else 0)).
  { intros x. rewrite usb_device_ctor_eq. cbn [snd native].
    now rewrite ref_device_counts by exact HD. }
  destruct (usb_device_resets_counts ps D (snd (usb_device_ctor D w))
              (refcnt (native w)) HD Hps Hinv1) as (w2 & E2 & Hinv2).
  assert (Hlast : default D (last ps) <> nullptr).
  { destruct (last ps) as [p|] eqn:El; cbn; [|exact HD].
    apply last_Some_elem_of in El. eapply (proj1 (Forall_forall _ _) Hps), El. }
  exists (snd (usb_device_ctor D w)), w2. eexists. split.
  { rewrite usb_device_ctor_eq, ref_device_returns. reflexivity. }
  split; [exact E2|].
  split; [apply usb_device_dtor_eq|]. split; [exact Hinv2|].
  intros x. cbn [native]. unfold disposed.
  rewrite (nonnull_eqb _ Hlast), unref_device_counts, Hinv2 by exact Hlast.
  apply Z.add_simpl_r.
Qed.

End UsbDeviceReferences.

Lemma usb_device_reset_moves_reference_witness :
  exists w' : world Sim.state,
    usb_device_reset 6 (5, Sim.start Sim.ok [5; 6]) = (returned tt, (6, w'))
    /\ forall x : pointer,
        refcnt (native w') x
        = refcnt (native (Sim.start Sim.ok [5; 6])) x
          + (if decide (x = 6) then 1 else 0) - (if decide (x = 5) then 1 else 0).
Proof.
  apply (@usb_device_reset_moves_reference _ _ sim_refcount_laws 6 5
           (Sim.start Sim.ok [5; 6])).
  - unfold nullptr. lia.
  - unfold nullptr. lia.
Defined.

Lemma usb_device_references_balance_witness :
  exists (w1 w2 w3 : world Sim.state),
    usb_device_ctor 5 (Sim.start Sim.ok [5; 6]) = (returned 5, w1)
    /\ usb_device_resets [6; 6; 5; 6] (5, w1)
       = (returned tt, (default 5 (last [6; 6; 5; 6]), w2))
    /\ usb_device_dtor (default 5 (last [6; 6; 5; 6]), w2) = (returned tt, (nullptr, w3))
    /\ (forall x : pointer,
           refcnt (native w2) x
           = refcnt (native (Sim.start Sim.ok [5; 6])) x
             + (if decide (x = default 5 (last [6; 6; 5; 6])) then 1 else 0))
    /\ (forall x : pointer,
           refcnt (native w3) x = refcnt (native (Sim.start Sim.ok [5; 6])) x).
Proof.
  apply (@usb_device_references_balance _ _ sim_refcount_laws 5 [6; 6; 5; 6]
           (Sim.start Sim.ok [5; 6])).
  - unfold nullptr. lia.
  - repeat (apply Forall_cons; split; [unfold nullptr; lia|]). apply Forall_nil_2.
Defined.

(** ** The scoped resource and the handle returned by [open()] *)

Section ScopedResource.

Context {N : Type} `{LibUsb N}.

(** For any disposer: an owned non-null handle is disposed once by the
    destructor, which leaves the object empty, so that destroying again
    disposes nothing; [reset] disposes the old handle once and owns the
    new one; after [release()] the destructor disposes nothing; and an
    empty object never reaches the disposer. *)
Theorem unique_resource_disposes_once (Dispose : pointer -> eff (world N) unit)
    (p q : pointer) (w w' : world N) :
  p <> nullptr ->
  Dispose p w = (returned tt, w') ->
  unique_ptr_destroy Dispose (p, w) = (returned tt, (nullptr, w'))
  /\ (unique_ptr_destroy Dispose ;; unique_ptr_destroy Dispose) (p, w)
     = (returned tt, (nullptr, w'))
  /\ unique_ptr_reset Dispose q (p, w) = (returned tt, (q, w'))
  /\ (r ← unique_ptr_release; unique_ptr_destroy Dispose ;; mret r) (p, w)
     = (returned p, (nullptr, w))
  /\ unique_ptr_destroy Dispose (nullptr, w) = (returned tt, (nullptr, w))
  /\ unique_ptr_reset Dispose q (nullptr, w) = (returned tt, (q, w)).
Proof.
  intros Hp HD.
  unfold unique_ptr_destroy, unique_ptr_reset, unique_ptr_release, unique_resource_deleter.
  eff_unfold. rewrite (nonnull_eqb p Hp). cbn. rewrite HD. cbn.
  repeat split; reflexivity.
Qed.

(** [open()] on a successful native open issues that one native call,
    logs nothing and returns a handle that owns the stored channel with an
    empty claimed set; destroying the handle closes the channel, with no
    release call. *)
Theorem open_success (dev : usb_device) (w : world N) :
  let r := libusb_open dev (native w) in
  let h := DeviceHandle (snd (fst r)) [] in
  let w1 := World (snd r) (calls w ++ [call_libusb_open dev]) (logged w) in
  0 <= fst (fst r) ->
  open (dev, w) = (returned h, (dev, w1))
  /\ fst (device_handle_dtor (h, w1)) = returned tt
  /\ calls (snd (snd (device_handle_dtor (h, w1))))
     = calls w ++ [call_libusb_open dev]
       ++ (if snd (fst r) =? nullptr then [] else [call_libusb_close (snd (fst r))])
  /\ logged (snd (snd (device_handle_dtor (h, w1)))) = logged w.
Proof.
  cbn zeta. intros Hrc. split.
  - unfold open, with_local, CALL_LOG_ERROR_THROW, call_log_throw, libusb_open_into,
      device_handle_reset, on_base, unique_ptr_get, unique_ptr_reset,
      unique_resource_deleter, device_handle_default, for_each.
    eff_unfold.
    destruct (libusb_open dev (native w)) as [[rc out] n'] eqn:E. eff_unfold.
    cbn in Hrc. destruct (Z.ltb_spec rc 0); [lia|]. reflexivity.
  - rewrite device_handle_dtor_eq. cbn [fst snd calls logged handle_base claimedInterfaces].
    cbn [map release_all fst reset_entries]. unfold reset_entries, dispose_calls. cbn.
    rewrite app_nil_r, <- app_assoc. now repeat split.
Qed.

End ScopedResource.

Lemma unique_resource_disposes_once_witness :
  let w := Sim.two_open in
  let w' := World (libusb_close 1000 (native w)) (calls w ++ [call_libusb_close 1000])
                  (logged w) in
  unique_ptr_destroy libusb_close_ (1000, w) = (returned tt, (nullptr, w'))
  /\ (unique_ptr_destroy libusb_close_ ;; unique_ptr_destroy libusb_close_) (1000, w)
     = (returned tt, (nullptr, w'))
  /\ unique_ptr_reset libusb_close_ 1001 (1000, w) = (returned tt, (1001, w'))
  /\ (r ← unique_ptr_release; unique_ptr_destroy libusb_close_ ;; mret r) (1000, w)
     = (returned 1000, (nullptr, w))
  /\ unique_ptr_destroy libusb_close_ (nullptr, w) = (returned tt, (nullptr, w))
  /\ unique_ptr_reset libusb_close_ 1001 (nullptr, w) = (returned tt, (1001, w)).
Proof.
  apply (unique_resource_disposes_once libusb_close_ 1000 1001 Sim.two_open).
  - unfold nullptr. lia.
  - reflexivity.
Defined.

Lemma open_success_witness :
  let w := Sim.start Sim.ok [5] in
  let r := libusb_open 5 (native w) in
  let h := DeviceHandle 1000 [] in
  let w1 := World (snd r) [call_libusb_open 5] [] in
  open (5, w) = (returned h, (5, w1))
  /\ fst (device_handle_dtor (h, w1)) = returned tt
  /\ calls (snd (snd (device_handle_dtor (h, w1))))
     = [call_libusb_open 5; call_libusb_close 1000]
  /\ logged (snd (snd (device_handle_dtor (h, w1)))) = [].
Proof.
  assert (Hrc : 0 <= fst (fst (libusb_open 5 (native (Sim.start Sim.ok [5])))))
    by (vm_compute; discriminate).
  exact (open_success 5 (Sim.start Sim.ok [5]) Hrc).
Defined.
